(** * GitHub pull-request webhook listener: signature check and dispatch

    A shallow embedding of [github_webhook_listener.py]: the signature
    verifier [verify_webhook_signature], the six pull-request handlers and
    the [/webhook] endpoint, together with the library primitives they call
    (UTF-8 coding, SHA-256, HMAC, [hmac.compare_digest], [json.loads]). *)

From Stdlib Require Import String Ascii ZArith NArith Bool Lia.
From Stdlib Require Import Init.Byte List.
Import ListNotations.

Set Warnings "-register-all".

(* ================================================================== *)
(** ** Python values: [str] and [bytes] *)

(** A Python [str] is a sequence of Unicode code points; a [bytes] object
    is a sequence of octets. *)
Definition str := list N.
Definition bytes := list byte.

(** Source literals are ASCII; [lit] turns one into a [str]. *)
Definition lit (s : string) : str :=
  map N_of_ascii (list_ascii_of_string s).

(** [a == b] on two [str]: the same code points in the same order. *)
Fixpoint str_eqb (a b : str) : bool :=
  match a, b with
  | [], [] => true
  | c :: a', d :: b' => N.eqb c d && str_eqb a' b'
  | _, _ => false
  end.

(** [s.startswith(p)] *)
Fixpoint startswith (s p : str) : bool :=
  match p, s with
  | [], _ => true
  | _ :: _, [] => false
  | c :: p', d :: s' => N.eqb c d && startswith s' p'
  end.

(** [s[n:]] *)
Definition slice_from (n : nat) (s : str) : str := skipn n s.

Definition byte_of_N (n : N) : byte :=
  match Byte.of_N (N.land n 0xFF) with
  | Some b => b
  | None => x00
  end.

Definition byte_of_Z (z : Z) : byte := byte_of_N (Z.to_N (Z.land z 0xFF)).
Definition Z_of_byte (b : byte) : Z := Z.of_N (Byte.to_N b).

(* ================================================================== *)
(** ** UTF-8 *)

Module UTF8.
Local Open Scope N_scope.

Definition is_surrogate (c : N) : bool := (0xD800 <=? c) && (c <=? 0xDFFF).

(** One code point of [s.encode('utf-8')]; [None] stands for
    [UnicodeEncodeError], which the strict codec raises on a surrogate. *)
Definition encode_char (c : N) : option (list N) :=
  if c <? 0x80 then Some [c]
  else if c <? 0x800 then
    Some [N.lor 0xC0 (N.shiftr c 6); N.lor 0x80 (N.land c 0x3F)]
  else if c <? 0x10000 then
    if is_surrogate c then None
    else Some [N.lor 0xE0 (N.shiftr c 12);
               N.lor 0x80 (N.land (N.shiftr c 6) 0x3F);
               N.lor 0x80 (N.land c 0x3F)]
  else if c <? 0x110000 then
    Some [N.lor 0xF0 (N.shiftr c 18);
          N.lor 0x80 (N.land (N.shiftr c 12) 0x3F);
          N.lor 0x80 (N.land (N.shiftr c 6) 0x3F);
          N.lor 0x80 (N.land c 0x3F)]
  else None.

Fixpoint encode (s : str) : option bytes :=
  match s with
  | [] => Some []
  | c :: s' =>
      match encode_char c, encode s' with
      | Some bs, Some rest => Some (map byte_of_N bs ++ rest)
      | _, _ => None
      end
  end.

Definition cont (b : N) : bool := (0x80 <=? b) && (b <=? 0xBF).
Definition between (lo b hi : N) : bool := (lo <=? b) && (b <=? hi).
Definition low6 (b : N) : N := N.land b 0x3F.

(** [b.decode('utf-8')] with the strict error handler; [None] stands for
    [UnicodeDecodeError].  Only well-formed sequences are accepted: no
    overlong forms, no surrogates, nothing above U+10FFFF. *)
Fixpoint decode_N (bs : list N) : option str :=
  match bs with
  | [] => Some []
  | b0 :: r0 =>
      if b0 <? 0x80 then option_map (cons b0) (decode_N r0)
      else
        match r0 with
        | [] => None
        | b1 :: r1 =>
            if between 0xC2 b0 0xDF then
              if cont b1
              then option_map (cons (N.land b0 0x1F * 64 + low6 b1)) (decode_N r1)
              else None
            else
              match r1 with
              | [] => None
              | b2 :: r2 =>
                  if between 0xE0 b0 0xEF then
                    if (if b0 =? 0xE0 then between 0xA0 b1 0xBF
                        else if b0 =? 0xED then between 0x80 b1 0x9F
                        else cont b1) && cont b2
                    then option_map
                           (cons (N.land b0 0x0F * 4096 + low6 b1 * 64 + low6 b2))
                           (decode_N r2)
                    else None
                  else
                    match r2 with
                    | [] => None
                    | b3 :: r3 =>
                        if between 0xF0 b0 0xF4 then
                          if (if b0 =? 0xF0 then between 0x90 b1 0xBF
                              else if b0 =? 0xF4 then between 0x80 b1 0x8F
                              else cont b1) && cont b2 && cont b3
                          then option_map
                                 (cons (N.land b0 0x07 * 262144 + low6 b1 * 4096
                                        + low6 b2 * 64 + low6 b3))
                                 (decode_N r3)
                          else None
                        else None
                    end
              end
        end
  end.

Definition decode (b : bytes) : option str := decode_N (map Byte.to_N b).
End UTF8.

(** The bytes of an ASCII literal, as in [b'...']. *)
Definition blit (s : string) : bytes := map byte_of_N (lit s).

(* ================================================================== *)
(** ** SHA-256 (FIPS 180-4) and HMAC (RFC 2104), as [hashlib] and [hmac]
       compute them *)

Module SHA256.
Local Open Scope Z_scope.

Definition wrap32 (x : Z) : Z := Z.land x 0xFFFFFFFF.
Definition add32 (x y : Z) : Z := wrap32 (x + y).
Definition rotr (n x : Z) : Z :=
  Z.lor (Z.shiftr x n) (wrap32 (Z.shiftl x (32 - n))).
Definition not32 (x : Z) : Z := Z.lxor x 0xFFFFFFFF.

Definition Ch (x y z : Z) : Z := Z.lxor (Z.land x y) (Z.land (not32 x) z).
Definition Maj (x y z : Z) : Z :=
  Z.lxor (Z.lxor (Z.land x y) (Z.land x z)) (Z.land y z).
Definition Sum0 (x : Z) : Z := Z.lxor (Z.lxor (rotr 2 x) (rotr 13 x)) (rotr 22 x).
Definition Sum1 (x : Z) : Z := Z.lxor (Z.lxor (rotr 6 x) (rotr 11 x)) (rotr 25 x).
Definition sig0 (x : Z) : Z := Z.lxor (Z.lxor (rotr 7 x) (rotr 18 x)) (Z.shiftr x 3).
Definition sig1 (x : Z) : Z := Z.lxor (Z.lxor (rotr 17 x) (rotr 19 x)) (Z.shiftr x 10).

(** [word_at x n i] is the [i]-th of the [n] 32-bit words of [x], most
    significant first. *)
Definition word_at (x : Z) (n i : nat) : Z :=
  Z.land (Z.shiftr x (32 * Z.of_nat (n - 1 - i))) 0xFFFFFFFF.

(** The sixty-four round constants, given as the 2048-bit number made of
    the words in order. *)
Definition K_bits : Z :=
  0x428a2f9871374491b5c0fbcfe9b5dba53956c25b59f111f1923f82a4ab1c5ed5d807aa9812835b01243185be550c7dc372be5d7480deb1fe9bdc06a7c19bf174e49b69c1efbe47860fc19dc6240ca1cc2de92c6f4a7484aa5cb0a9dc76f988da983e5152a831c66db00327c8bf597fc7c6e00bf3d5a7914706ca63511429296727b70a852e1b21384d2c6dfc53380d13650a7354766a0abb81c2c92e92722c85a2bfe8a1a81a664bc24b8b70c76c51a3d192e819d6990624f40e3585106aa07019a4c1161e376c082748774c34b0bcb5391c0cb34ed8aa4a5b9cca4f682e6ff3748f82ee78a5636f84c878148cc7020890befffaa4506cebbef9a3f7c67178f2.

Definition K : list Z := map (word_at K_bits 64) (seq 0 64).

(** The eight chaining words. *)
Record chain := Chain { ha : Z; hb : Z; hc : Z; hd : Z;
                        he : Z; hf : Z; hg : Z; hh : Z }.

Definition init_bits : Z :=
  0x6a09e667bb67ae853c6ef372a54ff53a510e527f9b05688c1f83d9ab5be0cd19.

Definition init : chain :=
  let w := word_at init_bits 8 in
  Chain (w 0%nat) (w 1%nat) (w 2%nat) (w 3%nat)
        (w 4%nat) (w 5%nat) (w 6%nat) (w 7%nat).

(** Padding: a 1 bit, zeros up to 56 mod 64 octets, the bit length on
    eight octets, big-endian. *)
Definition be_bytes (n : nat) (x : Z) : list Z :=
  map (fun i => Z.land (Z.shiftr x (8 * Z.of_nat (n - 1 - i))) 0xFF) (seq 0 n).

Definition pad (msg : list Z) : list Z :=
  let len := Z.of_nat (length msg) in
  msg ++ 0x80 :: repeat 0 (Z.to_nat ((55 - len) mod 64)) ++ be_bytes 8 (8 * len).

Fixpoint words (bs : list Z) : list Z :=
  match bs with
  | a :: b :: c :: d :: r =>
      (Z.shiftl a 24 + Z.shiftl b 16 + Z.shiftl c 8 + d) :: words r
  | _ => []
  end.

(** Message schedule, kept most recent word first while it grows. *)
Fixpoint extend (n : nat) (w : list Z) : list Z :=
  match n with
  | O => w
  | S n' =>
      let wt := add32 (add32 (sig1 (nth 1 w 0)) (nth 6 w 0))
                      (add32 (sig0 (nth 14 w 0)) (nth 15 w 0)) in
      extend n' (wt :: w)
  end.

Definition schedule (block : list Z) : list Z := rev (extend 48 (rev block)).

Definition round (s : chain) (kw : Z * Z) : chain :=
  let t1 := add32 (add32 (add32 (hh s) (Sum1 (he s)))
                         (add32 (Ch (he s) (hf s) (hg s)) (fst kw))) (snd kw) in
  let t2 := add32 (Sum0 (ha s)) (Maj (ha s) (hb s) (hc s)) in
  Chain (add32 t1 t2) (ha s) (hb s) (hc s) (add32 (hd s) t1) (he s) (hf s) (hg s).

Definition compress (h : chain) (block : list Z) : chain :=
  let s := fold_left round (combine K (schedule block)) h in
  Chain (add32 (ha h) (ha s)) (add32 (hb h) (hb s))
        (add32 (hc h) (hc s)) (add32 (hd h) (hd s))
        (add32 (he h) (he s)) (add32 (hf h) (hf s))
        (add32 (hg h) (hg s)) (add32 (hh h) (hh s)).

Fixpoint blocks (n : nat) (ws : list Z) (h : chain) : chain :=
  match n with
  | O => h
  | S n' => blocks n' (skipn 16 ws) (compress h (firstn 16 ws))
  end.

Definition digest_words (h : chain) : list Z :=
  [ha h; hb h; hc h; hd h; he h; hf h; hg h; hh h].

Definition sha256 (msg : bytes) : bytes :=
  let ws := words (pad (map Z_of_byte msg)) in
  let h := blocks (length ws / 16) ws init in
  map byte_of_Z (flat_map (be_bytes 4) (digest_words h)).
End SHA256.

Module HMAC.
Definition block_size : nat := 64.

Definition xor_with (c : Z) (b : byte) : byte :=
  byte_of_Z (Z.lxor (Z_of_byte b) c).

(** [hmac.new(key, msg, hashlib.sha256).digest()] *)
Definition hmac_sha256 (key msg : bytes) : bytes :=
  let k := if (block_size <? length key)%nat then SHA256.sha256 key else key in
  let k := k ++ repeat x00 (block_size - length k) in
  SHA256.sha256 (map (xor_with 0x5C) k
                 ++ SHA256.sha256 (map (xor_with 0x36) k ++ msg)).
End HMAC.

Arguments SHA256.sha256 : simpl never.
Arguments HMAC.hmac_sha256 : simpl never.

(** [.hexdigest()]: two lowercase hexadecimal digits per octet. *)
Definition hex_digit (n : N) : N :=
  (if n <? 10 then 48 + n else 87 + n)%N.

Definition hex_byte (b : byte) : str :=
  let n := Byte.to_N b in
  [hex_digit (n / 16); hex_digit (n mod 16)]%N.

Definition hexdigest (d : bytes) : str := flat_map hex_byte d.


(* ================================================================== *)
(** ** Decoded JSON documents *)

(** A float literal is kept as the exact decimal it denotes,
    [(-1)^neg * digits * 10^exp10]; rounding to a double is only needed to
    tell whether the value is zero. *)
Inductive pyfloat :=
| FNaN
| FInf (neg : bool)
| FDec (neg : bool) (digits : N) (exp10 : Z).

(** What [json.loads] builds: [None], [bool], [int], [float], [str],
    [list], and [dict] with [str] keys in insertion order. *)
Inductive value :=
| VNone
| VBool (b : bool)
| VInt (z : Z)
| VFloat (f : pyfloat)
| VStr (s : str)
| VList (l : list value)
| VDict (d : list (str * value)).

Definition dict := list (str * value).

(** [d.get(k)] on the association list behind a [dict]. *)
Fixpoint dict_lookup (d : dict) (k : str) : option value :=
  match d with
  | [] => None
  | (k', v) :: d' => if str_eqb k' k then Some v else dict_lookup d' k
  end.

(** [d[k] = v]: an existing key keeps its position. *)
Fixpoint dict_set (d : dict) (k : str) (v : value) : dict :=
  match d with
  | [] => [(k, v)]
  | (k', v') :: d' =>
      if str_eqb k' k then (k', v) :: d' else (k', v') :: dict_set d' k v
  end.

(** A decimal rounds to the double zero when it is at most [2^-1075], half
    the least subnormal (ties go to the even neighbour, which is zero). *)
Definition float_is_zero (f : pyfloat) : bool :=
  match f with
  | FNaN | FInf _ => false
  | FDec _ m e =>
      if (0 <=? e)%Z then (m =? 0)%N
      else (Z.of_N m * 2 ^ 1075 <=? 10 ^ (- e))%Z
  end.

(** Truth value of an object, as tested by [if x:]. *)
Definition truthy (v : value) : bool :=
  match v with
  | VNone => false
  | VBool b => b
  | VInt z => negb (z =? 0)%Z
  | VFloat f => negb (float_is_zero f)
  | VStr s => negb (Nat.eqb (length s) 0)
  | VList l => negb (Nat.eqb (length l) 0)
  | VDict d => negb (Nat.eqb (length d) 0)
  end.

(** [v == 'literal'] *)
Definition eq_str (v : value) (s : string) : bool :=
  match v with
  | VStr t => str_eqb t (lit s)
  | _ => false
  end.

(** An optional header value as the Python object [headers.get] returns. *)
Definition of_optional (o : option str) : value :=
  match o with
  | Some s => VStr s
  | None => VNone
  end.

(** ** Conversion to text

    [str(n)] of an [int], and with it [format(n, '')] and the [repr] of
    any object that holds [n], is refused with [ValueError] when [n] has
    more decimal digits than [sys.get_int_max_str_digits()], which is 4300
    unless the interpreter is configured otherwise; [int(text)] refuses a
    literal of more digits in the same way. *)
Definition int_max_str_digits : Z := 4300.

(** The least integer with one digit too many, [10 ^ 4300], computed once. *)
Definition digit_bound : Z := Eval vm_compute in (10 ^ int_max_str_digits)%Z.

Definition int_converts (z : Z) : bool := (Z.abs z <? digit_bound)%Z.

(** [format(v, '')] succeeds: every [int] in [v] converts.  A [str] is
    taken as it is, [None], [bool] and [float] always convert, and a
    [list] or [dict] is shown by the [repr] of its items. *)
Fixpoint renders (v : value) : bool :=
  match v with
  | VInt z => int_converts z
  | VList l => forallb renders l
  | VDict d => forallb (fun kv : str * value => renders (snd kv)) d
  | _ => true
  end.

(** Objects without items: everything but [list] and [dict]. *)
Definition scalar (v : value) : bool :=
  match v with
  | VList _ | VDict _ => false
  | _ => true
  end.


(* ================================================================== *)
(** ** Exceptions and effects *)

(** The [Exception] subclasses that can reach the endpoint; a constructor
    stands for the class together with its subclasses. *)
Inductive exn :=
| JSONDecodeError
| UnicodeDecodeError
| UnicodeEncodeError
| TypeError
| KeyError (key : str)
| AttributeError
| OtherException (name : string).

Definition is_JSONDecodeError (e : exn) : bool :=
  match e with
  | JSONDecodeError => true
  | _ => false
  end.

(** A [ValueError] that is not a [JSONDecodeError], and an [OSError]. *)
Definition ValueError : exn := OtherException "ValueError".

Inductive outcome (A : Type) :=
| Return (a : A)
| Raise (e : exn).
Arguments Return {A} a.
Arguments Raise {A} e.

(** A computation writes a trace of [W] and then returns or raises. *)
Definition M (W A : Type) : Type := (list W * outcome A)%type.

Definition ret {W A} (a : A) : M W A := ([], Return a).
Definition raise {W A} (e : exn) : M W A := ([], Raise e).
Definition emit {W} (w : W) : M W unit := ([w], Return tt).

Definition bind {W A B} (m : M W A) (k : A -> M W B) : M W B :=
  match m with
  | (t, Return a) => let (t', r) := k a in (t ++ t', r)
  | (t, Raise e) => (t, Raise e)
  end.

Notation "x <- m ;; k" := (bind m (fun x => k))
  (at level 61, m at next level, right associativity).
Notation "m ;;; k" := (bind m (fun _ => k))
  (at level 61, right associativity).

Definition trace {W A} (m : M W A) : list W := fst m.
Definition result {W A} (m : M W A) : outcome A := snd m.

(** Log records.  An f-string is kept as its template and the objects
    substituted into it. *)
Inductive level := INFO | WARNING | ERROR.

Inductive arg :=
| AVal (v : value)
| AExc (e : exn).

Record record := Rec { rec_level : level; rec_msg : string; rec_args : list arg }.

Definition info (msg : string) (vs : list value) : M record unit :=
  emit (Rec INFO msg (map AVal vs)).
Definition warning (msg : string) : M record unit :=
  emit (Rec WARNING msg []).

(** A replacement field [{e}] of an f-string: [e] is evaluated and its
    value converted with [format(v, '')] before the next field is looked
    at, and before the call the string is an argument of.  The conversion
    of a [list] or [dict] nested deeper than the call stack allows raises
    [RecursionError]; that bound is not a property of the value and is not
    reproduced, so statements about converted values are made for scalars. *)
Definition formatted {W} (m : M W value) : M W value :=
  v <- m ;;
  if renders v then ret v else raise ValueError.

(* ================================================================== *)
(** ** [verify_webhook_signature] *)

Definition is_ascii (s : str) : bool := forallb (fun c => (c <? 128)%N) s.

(** [hmac.compare_digest(a, b)] on two [str]: both must be ASCII-only,
    otherwise [TypeError] is raised; the result is plain equality. *)
Definition compare_digest {W} (a b : str) : M W bool :=
  if is_ascii a && is_ascii b then ret (str_eqb a b) else raise TypeError.

(** [secret.encode('utf-8')] *)
Definition encode_utf8 {W} (s : str) : M W bytes :=
  match UTF8.encode s with
  | Some b => ret b
  | None => raise UnicodeEncodeError
  end.

(** [not s] for a [str]: true on the empty string. *)
Definition is_empty (s : str) : bool :=
  match s with
  | [] => true
  | _ :: _ => false
  end.

(** The header value is [None] when the request carries no such header;
    [not None] is true, so an absent header takes the first exit. *)
Definition verify_webhook_signature
    (payload : bytes) (signature : option str) (secret : str) : M record bool :=
  let missing := warning "Missing signature or secret" ;;; ret false in
  match signature with
  | None => missing
  | Some signature =>
      if is_empty signature || is_empty secret then missing
      else if negb (startswith signature (lit "sha256=")) then
        warning "Invalid signature format" ;;;
        ret false
      else
        let expected_signature := slice_from 7 signature in
        key <- encode_utf8 secret ;;
        let calculated_signature := hexdigest (HMAC.hmac_sha256 key payload) in
        compare_digest expected_signature calculated_signature
  end.

(* ================================================================== *)
(** ** [json.loads]

    A reference decoder for the grammar the [json] module accepts by
    default (the C scanner: RFC 8259 plus [NaN], [Infinity] and
    [-Infinity], strict strings, the last binding of a repeated key wins).
    Every rejection by the grammar is a [JSONDecodeError]; an integer
    literal of more digits than [int] converts is refused with
    [ValueError] where it is met.  The recursion limit, which bounds the
    nesting the scanner accepts by the depth of the call stack, is not
    reproduced here; the endpoint is parametrised over its loader so that
    results about it hold whatever the loader raises. *)

Module JSON.
Local Open Scope N_scope.

Inductive scan (A : Type) :=
| Scanned (a : A) (rest : str)
| Invalid
| Refused
| Exhausted.
Arguments Scanned {A} a rest.
Arguments Invalid {A}.
Arguments Refused {A}.
Arguments Exhausted {A}.

Definition is_ws (c : N) : bool :=
  (c =? 32) || (c =? 9) || (c =? 10) || (c =? 13).

Fixpoint skip_ws (s : str) : str :=
  match s with
  | [] => []
  | c :: r => if is_ws c then skip_ws r else s
  end.

Definition is_digit (c : N) : bool := (48 <=? c) && (c <=? 57).

Definition hex_val (c : N) : option N :=
  if is_digit c then Some (c - 48)
  else if (97 <=? c) && (c <=? 102) then Some (c - 87)
  else if (65 <=? c) && (c <=? 70) then Some (c - 55)
  else None.

Definition hex4 (a b c d : N) : option N :=
  match hex_val a, hex_val b, hex_val c, hex_val d with
  | Some x, Some y, Some z, Some w => Some (((x * 16 + y) * 16 + z) * 16 + w)
  | _, _, _, _ => None
  end.

Definition is_high (c : N) : bool := (0xD800 <=? c) && (c <=? 0xDBFF).
Definition is_low (c : N) : bool := (0xDC00 <=? c) && (c <=? 0xDFFF).
Definition join_surrogates (hi lo : N) : N :=
  0x10000 + (hi - 0xD800) * 1024 + (lo - 0xDC00).

(** The character a one-letter escape stands for. *)
Definition unescape (c : N) : option N :=
  match c with
  | 34 => Some 34       (* quotation mark *)
  | 92 => Some 92       (* reverse solidus *)
  | 47 => Some 47       (* solidus *)
  | 98 => Some 8        (* b *)
  | 102 => Some 12      (* f *)
  | 110 => Some 10      (* n *)
  | 114 => Some 13      (* r *)
  | 116 => Some 9       (* t *)
  | _ => None
  end.

Definition push (c : N) (r : option (str * str)) : option (str * str) :=
  match r with
  | Some (s, rest) => Some (c :: s, rest)
  | None => None
  end.

(** The body of a string, scanned from just after its opening quote.
    Character codes: 34 quotation mark, 92 reverse solidus, 117 [u]. *)
Fixpoint scanstring (s : str) : option (str * str) :=
  match s with
  | [] => None
  | c :: r =>
      if c =? 34 then Some ([], r)
      else if c =? 92 then
        match r with
        | [] => None
        | e :: r0 =>
            if e =? 117 then
              match r0 with
              | h1 :: h2 :: h3 :: h4 :: r1 =>
                  match r1, hex4 h1 h2 h3 h4 with
                  | [], _ | _, None => None
                  | _ :: _, Some u =>
                      match r1 with
                      | b :: e' :: g1 :: g2 :: g3 :: g4 :: r2 =>
                          if is_high u && (b =? 92) && (e' =? 117)
                             && negb (is_empty r2)
                          then
                            match hex4 g1 g2 g3 g4 with
                            | None => None
                            | Some u2 =>
                                if is_low u2
                                then push (join_surrogates u u2) (scanstring r2)
                                else push u (scanstring r1)
                            end
                          else push u (scanstring r1)
                      | _ => push u (scanstring r1)
                      end
                  end
              | _ => None
              end
            else
              match unescape e with
              | Some c' => push c' (scanstring r0)
              | None => None
              end
        end
      else if c <=? 0x1F then None
      else push c (scanstring r)
  end.

(** [strip p s] is what follows the prefix [p] of [s], if [s] starts
    with it. *)
Fixpoint strip (p s : str) : option str :=
  match p, s with
  | [], _ => Some s
  | c :: p', d :: s' => if c =? d then strip p' s' else None
  | _ :: _, [] => None
  end.

Fixpoint take_digits (s : str) : str * str :=
  match s with
  | c :: r =>
      if is_digit c then let (ds, rest) := take_digits r in (c :: ds, rest)
      else ([], s)
  | [] => ([], [])
  end.

Definition decimal (ds : str) : N :=
  fold_left (fun acc c => acc * 10 + (c - 48)) ds 0.

(** The three parts of a number.  The integer part is a lone zero or a
    digit sequence (its first digit [c] has been seen); the fraction is a
    point and at least one digit; the exponent is [e] or [E], an optional
    sign and at least one digit.  A part that is not there leaves the input
    untouched.  Character codes: 48 zero, 46 point, 101 and 69 [e] and [E],
    45 minus, 43 plus. *)
Definition int_part (c : N) (r : str) : str * str :=
  if c =? 48 then ([c], r)
  else let (ds, rest) := take_digits r in (c :: ds, rest).

Definition frac_part (s : str) : str * str :=
  match s with
  | p :: d :: r =>
      if (p =? 46) && is_digit d
      then let (ds, rest) := take_digits r in (d :: ds, rest)
      else ([], s)
  | _ => ([], s)
  end.

Definition exp_part (s : str) : option Z * str :=
  match s with
  | e :: r =>
      if (e =? 101) || (e =? 69) then
        let (minus, r') :=
          match strip [45] r, strip [43] r with
          | Some t, _ => (true, t)
          | None, Some t => (false, t)
          | None, None => (false, r)
          end in
        let (ds, rest) := take_digits r' in
        match ds with
        | [] => (None, s)
        | _ :: _ =>
            (Some (if minus then (- Z.of_N (decimal ds))%Z
                   else Z.of_N (decimal ds)), rest)
        end
      else (None, s)
  | [] => (None, s)
  end.

(** An [int] when there is neither fraction nor exponent, a [float]
    otherwise. *)
Definition number_value (neg : bool) (int_digits frac : str) (expo : option Z)
  : value :=
  match frac, expo with
  | [], None =>
      VInt (if neg then (- Z.of_N (decimal int_digits))%Z
            else Z.of_N (decimal int_digits))
  | _, _ =>
      let e := match expo with Some e => e | None => 0%Z end in
      VFloat (FDec neg (decimal (int_digits ++ frac))
                (e - Z.of_nat (length frac))%Z)
  end.

(** A literal that is an [int] goes through [int(text)], which refuses
    more digits than the limit. *)
Definition int_refused (int_digits frac : str) (expo : option Z) : bool :=
  match frac, expo with
  | [], None => (int_max_str_digits <? Z.of_nat (length int_digits))%Z
  | _, _ => false
  end.

Definition scan_number (s : str) : scan value :=
  let (neg, s1) := match strip [45] s with
                   | Some r => (true, r)
                   | None => (false, s)
                   end in
  match s1 with
  | [] => Invalid
  | c :: r =>
      if is_digit c then
        let (int_digits, r1) := int_part c r in
        let (frac, r2) := frac_part r1 in
        let (expo, r3) := exp_part r2 in
        if int_refused int_digits frac expo then Refused
        else Scanned (number_value neg int_digits frac expo) r3
      else Invalid
  end.

Definition keyword (w : string) (v : value) (s : str) (otherwise : scan value)
  : scan value :=
  match strip (lit w) s with
  | Some rest => Scanned v rest
  | None => otherwise
  end.

(** [scan_once] reads one value; [members] and [elements] are the loops
    over the inside of an object and of an array, entered at the first
    key and at the first element.  The counter bounds the number of
    calls, each of which consumes input.  Character codes: 34 quotation
    mark, 123 and 125 braces, 91 and 93 brackets, 58 colon, 44 comma. *)
Fixpoint scan_once (n : nat) (s : str) {struct n} : scan value :=
  match n with
  | O => Exhausted
  | S n' =>
      match s with
      | [] => Invalid
      | c :: r =>
          if c =? 34 then
            match scanstring r with
            | Some (t, rest) => Scanned (VStr t) rest
            | None => Invalid
            end
          else if c =? 123 then
            match strip [125] (skip_ws r) with
            | Some rest => Scanned (VDict []) rest
            | None => members n' (skip_ws r) []
            end
          else if c =? 91 then
            match strip [93] (skip_ws r) with
            | Some rest => Scanned (VList []) rest
            | None => elements n' (skip_ws r) []
            end
          else if c =? 110 then keyword "null" VNone s (scan_number s)
          else if c =? 116 then keyword "true" (VBool true) s (scan_number s)
          else if c =? 102 then keyword "false" (VBool false) s (scan_number s)
          else if c =? 78 then keyword "NaN" (VFloat FNaN) s (scan_number s)
          else if c =? 73
          then keyword "Infinity" (VFloat (FInf false)) s (scan_number s)
          else if c =? 45
          then keyword "-Infinity" (VFloat (FInf true)) s (scan_number s)
          else scan_number s
      end
  end
with members (n : nat) (s : str) (acc : dict) {struct n} : scan value :=
  match n with
  | O => Exhausted
  | S n' =>
      match strip [34] s with
      | None => Invalid
      | Some r =>
          match scanstring r with
          | None => Invalid
          | Some (key, r1) =>
              match strip [58] (skip_ws r1) with
              | None => Invalid
              | Some r2 =>
                  match scan_once n' (skip_ws r2) with
                  | Scanned v r3 =>
                      let acc' := dict_set acc key v in
                      match strip [125] (skip_ws r3), strip [44] (skip_ws r3) with
                      | Some rest, _ => Scanned (VDict acc') rest
                      | None, Some r4 => members n' (skip_ws r4) acc'
                      | None, None => Invalid
                      end
                  | Invalid => Invalid
                  | Refused => Refused
                  | Exhausted => Exhausted
                  end
              end
          end
      end
  end
with elements (n : nat) (s : str) (acc : list value) {struct n} : scan value :=
  match n with
  | O => Exhausted
  | S n' =>
      match scan_once n' s with
      | Scanned v r1 =>
          match strip [93] (skip_ws r1), strip [44] (skip_ws r1) with
          | Some rest, _ => Scanned (VList (acc ++ [v])) rest
          | None, Some r2 => elements n' (skip_ws r2) (acc ++ [v])
          | None, None => Invalid
          end
      | Invalid => Invalid
      | Refused => Refused
      | Exhausted => Exhausted
      end
  end.

Definition fuel_for (s : str) : nat := 2 * length s + 2.
End JSON.

(** [json.loads(s)] for a [str]: a leading byte-order mark is refused,
    surrounding whitespace is skipped, and nothing may follow the value. *)
Definition json_loads (s : str) : outcome value :=
  if startswith s [0xFEFF%N] then Raise JSONDecodeError
  else
    match JSON.scan_once (JSON.fuel_for s) (JSON.skip_ws s) with
    | JSON.Scanned v rest =>
        match JSON.skip_ws rest with
        | [] => Return v
        | _ :: _ => Raise JSONDecodeError
        end
    | JSON.Invalid => Raise JSONDecodeError
    | JSON.Refused => Raise ValueError
    | JSON.Exhausted => Raise (OtherException "RecursionError")
    end.

(* ================================================================== *)
(** ** The pull-request handlers *)

(** [obj[key]] with a [str] key: only a [dict] holding the key answers;
    a missing key is a [KeyError], any other object a [TypeError]. *)
Definition getitem {W} (obj : value) (key : string) : M W value :=
  match obj with
  | VDict d =>
      match dict_lookup d (lit key) with
      | Some v => ret v
      | None => raise (KeyError (lit key))
      end
  | _ => raise TypeError
  end.

(** [obj.get(key)]: [None] for a missing key; objects other than a [dict]
    have no such method. *)
Definition get {W} (obj : value) (key : string) : M W value :=
  match obj with
  | VDict d =>
      ret (match dict_lookup d (lit key) with
           | Some v => v
           | None => VNone
           end)
  | _ => raise AttributeError
  end.

Definition when {W} (c : bool) (m : M W unit) : M W unit :=
  if c then m else ret tt.

Definition handle_pull_request_opened (payload : value) : M record unit :=
  pr <- getitem payload "pull_request" ;;
  repo <- getitem payload "repository" ;;
  sender <- getitem payload "sender" ;;
  number <- formatted (getitem pr "number") ;;
  title <- formatted (getitem pr "title") ;;
  info "New PR opened: #{} - {}" [number; title] ;;;
  full_name <- formatted (getitem repo "full_name") ;;
  info "Repository: {}" [full_name] ;;;
  login <- formatted (getitem sender "login") ;;
  info "Author: {}" [login] ;;;
  html_url <- formatted (getitem pr "html_url") ;;
  info "URL: {}" [html_url].

Definition handle_pull_request_closed (payload : value) : M record unit :=
  pr <- getitem payload "pull_request" ;;
  repo <- getitem payload "repository" ;;
  sender <- getitem payload "sender" ;;
  number <- formatted (getitem pr "number") ;;
  title <- formatted (getitem pr "title") ;;
  info "PR closed: #{} - {}" [number; title] ;;;
  full_name <- formatted (getitem repo "full_name") ;;
  info "Repository: {}" [full_name] ;;;
  login <- formatted (getitem sender "login") ;;
  info "Closed by: {}" [login] ;;;
  merged <- formatted (getitem pr "merged") ;;
  info "Merged: {}" [merged].

Definition handle_pull_request_merged (payload : value) : M record unit :=
  pr <- getitem payload "pull_request" ;;
  repo <- getitem payload "repository" ;;
  sender <- getitem payload "sender" ;;
  number <- formatted (getitem pr "number") ;;
  title <- formatted (getitem pr "title") ;;
  info "PR merged: #{} - {}" [number; title] ;;;
  full_name <- formatted (getitem repo "full_name") ;;
  info "Repository: {}" [full_name] ;;;
  login <- formatted (getitem sender "login") ;;
  info "Merged by: {}" [login] ;;;
  sha <- formatted (getitem pr "merge_commit_sha") ;;
  info "Merge commit: {}" [sha].

Definition handle_pull_request_review_requested (payload : value)
  : M record unit :=
  pr <- getitem payload "pull_request" ;;
  repo <- getitem payload "repository" ;;
  requested_reviewer <- get payload "requested_reviewer" ;;
  requested_team <- get payload "requested_team" ;;
  number <- formatted (getitem pr "number") ;;
  title <- formatted (getitem pr "title") ;;
  info "Review requested for PR: #{} - {}" [number; title] ;;;
  full_name <- formatted (getitem repo "full_name") ;;
  info "Repository: {}" [full_name] ;;;
  when (truthy requested_reviewer)
    (login <- formatted (getitem requested_reviewer "login") ;;
     info "Requested reviewer: {}" [login]) ;;;
  when (truthy requested_team)
    (name <- formatted (getitem requested_team "name") ;;
     info "Requested team: {}" [name]).

Definition handle_pull_request_review_submitted (payload : value)
  : M record unit :=
  pr <- getitem payload "pull_request" ;;
  repo <- getitem payload "repository" ;;
  review <- getitem payload "review" ;;
  sender <- getitem payload "sender" ;;
  number <- formatted (getitem pr "number") ;;
  title <- formatted (getitem pr "title") ;;
  info "Review submitted for PR: #{} - {}" [number; title] ;;;
  full_name <- formatted (getitem repo "full_name") ;;
  info "Repository: {}" [full_name] ;;;
  login <- formatted (getitem sender "login") ;;
  info "Reviewer: {}" [login] ;;;
  state <- formatted (getitem review "state") ;;
  info "Review state: {}" [state] ;;;
  body <- get review "body" ;;
  when (truthy body)
    (body' <- formatted (getitem review "body") ;;
     info "Review comment: {}" [body']).

Definition handle_pull_request_synchronize (payload : value) : M record unit :=
  pr <- getitem payload "pull_request" ;;
  repo <- getitem payload "repository" ;;
  sender <- getitem payload "sender" ;;
  number <- formatted (getitem pr "number") ;;
  title <- formatted (getitem pr "title") ;;
  info "PR updated: #{} - {}" [number; title] ;;;
  full_name <- formatted (getitem repo "full_name") ;;
  info "Repository: {}" [full_name] ;;;
  login <- formatted (getitem sender "login") ;;
  info "Updated by: {}" [login] ;;;
  head <- getitem pr "head" ;;
  sha <- formatted (getitem head "sha") ;;
  info "New commit: {}" [sha].

(** The six functions the endpoint can call. *)
Inductive handler :=
| Opened
| Closed
| Merged
| ReviewRequested
| ReviewSubmitted
| Synchronize.

Definition module_handlers (h : handler) : value -> M record unit :=
  match h with
  | Opened => handle_pull_request_opened
  | Closed => handle_pull_request_closed
  | Merged => handle_pull_request_merged
  | ReviewRequested => handle_pull_request_review_requested
  | ReviewSubmitted => handle_pull_request_review_submitted
  | Synchronize => handle_pull_request_synchronize
  end.

(* ================================================================== *)
(** ** The [/webhook] endpoint *)

(** What the endpoint reads of a request: the raw body and the header
    lookup [request.headers.get], [None] for an absent header. *)
Record request := Request {
  get_data : bytes;
  headers_get : string -> option str
}.

(** A response: the JSON object sent back and the status code. *)
Record response := Response {
  body : list (string * string);
  status : nat
}.

(** [jsonify({key: text})] *)
Definition jsonify (key text : string) : list (string * string) := [(key, text)].

(** What a run of the endpoint does besides answering: the records it
    logs, the handler calls it makes and the documents it hands to
    [json.loads]. *)
Inductive event :=
| Log (r : record)
| Call (h : handler) (payload : value)
| Parse (text : str).

Definition lift {A} (m : M record A) : M event A := (map Log (fst m), snd m).

Definition log_info (msg : string) (vs : list value) : M event unit :=
  lift (info msg vs).

(** [payload.decode('utf-8')] *)
Definition decode_utf8 {W} (b : bytes) : M W str :=
  match UTF8.decode b with
  | Some s => ret s
  | None => raise UnicodeDecodeError
  end.

Section Endpoint.
(** The configured secret, the JSON loader and the handler functions
    bound to the six names at the time of the call.  The loader stands for
    [json.loads]: what it returns holds no integer beyond the digit limit
    (the loader itself refuses such a literal), so the f-strings of the
    endpoint, which show the event-type header and the action, convert. *)
Variable WEBHOOK_SECRET : str.
Variable loads : str -> outcome value.
Variable handlers : handler -> value -> M record unit.

Definition parse (text : str) : M event value := ([Parse text], loads text).

Definition call (h : handler) (data : value) : M event unit :=
  emit (Call h data) ;;; lift (handlers h data).

Definition received : response :=
  Response (jsonify "message" "Webhook received successfully") 200.

(** The body of the [try] block. *)
Definition webhook_try (req : request) : M event response :=
  let payload := get_data req in
  let signature := headers_get req "X-Hub-Signature-256" in
  ok <- lift (verify_webhook_signature payload signature WEBHOOK_SECRET) ;;
  if negb ok then
    lift (warning "Invalid webhook signature") ;;;
    ret (Response (jsonify "error" "Invalid signature") 401)
  else
    text <- decode_utf8 payload ;;
    data <- parse text ;;
    let event_type := of_optional (headers_get req "X-GitHub-Event") in
    if eq_str event_type "pull_request" then
      action <- get data "action" ;;
      log_info "Received pull_request event: {}" [action] ;;;
      (if eq_str action "opened" then call Opened data
       else if eq_str action "closed" then call Closed data
       else if eq_str action "merged" then call Merged data
       else if eq_str action "review_requested" then call ReviewRequested data
       else if eq_str action "submitted" then call ReviewSubmitted data
       else if eq_str action "synchronize" then call Synchronize data
       else log_info "Unhandled pull request action: {}" [action]) ;;;
      ret received
    else if eq_str event_type "ping" then
      log_info "Received ping event from GitHub" [] ;;;
      ret (Response (jsonify "message" "Pong") 200)
    else
      log_info "Unhandled event type: {}" [event_type] ;;;
      ret received.

(** The endpoint: the [try] block under its two [except] clauses. *)
Definition webhook (req : request) : list event * response :=
  match webhook_try req with
  | (t, Return r) => (t, r)
  | (t, Raise e) =>
      if is_JSONDecodeError e then
        (t ++ [Log (Rec ERROR "Invalid JSON payload" [])],
         Response (jsonify "error" "Invalid JSON") 400)
      else
        (t ++ [Log (Rec ERROR "Error processing webhook: {}" [AExc e])],
         Response (jsonify "error" "Internal server error") 500)
  end.
End Endpoint.

(** The endpoint as the module runs it: its own handlers and the reference
    loader. *)
Definition webhook_app (secret : str) : request -> list event * response :=
  webhook secret json_loads module_handlers.

(** Projections of a run. *)
Fixpoint calls (t : list event) : list (handler * value) :=
  match t with
  | [] => []
  | Call h v :: t' => (h, v) :: calls t'
  | _ :: t' => calls t'
  end.

Fixpoint parses (t : list event) : list str :=
  match t with
  | [] => []
  | Parse s :: t' => s :: parses t'
  | _ :: t' => parses t'
  end.

(** The two records the verifier can log. *)
Definition missing_record : record := Rec WARNING "Missing signature or secret" [].
Definition format_record : record := Rec WARNING "Invalid signature format" [].

(* ================================================================== *)
(** ** The route table *)

(** The action names the dispatcher knows, with the handler bound to
    each, as the specification lists them. *)
Definition route_table : list (string * handler) :=
  [("opened", Opened); ("closed", Closed); ("merged", Merged);
   ("review_requested", ReviewRequested); ("submitted", ReviewSubmitted);
   ("synchronize", Synchronize)]%string.

(** The first entry whose name equals the action, code point for code
    point. *)
Fixpoint lookup_route (table : list (string * handler)) (action : str)
  : option handler :=
  match table with
  | [] => None
  | (name, h) :: table' =>
      if str_eqb action (lit name) then Some h else lookup_route table' action
  end.

(** Only a [str] can equal an action name. *)
Definition route (action : value) : option handler :=
  match action with
  | VStr a => lookup_route route_table a
  | _ => None
  end.

(* ================================================================== *)
(** ** Vocabulary for statements about the endpoint *)

Definition signature_of (req : request) : option str :=
  headers_get req "X-Hub-Signature-256".

Definition event_type_of (req : request) : option str :=
  headers_get req "X-GitHub-Event".

(** The signature of the request verifies under the secret. *)
Definition verified (secret : str) (req : request) : Prop :=
  result (verify_webhook_signature (get_data req) (signature_of req) secret)
  = Return true.

(** [d.get('action')] *)
Definition action_of (d : dict) : value :=
  match dict_lookup d (lit "action") with
  | Some v => v
  | None => VNone
  end.

(** The record and the response of the two [except] clauses. *)
Definition failure_record (e : exn) : record :=
  if is_JSONDecodeError e then Rec ERROR "Invalid JSON payload" []
  else Rec ERROR "Error processing webhook: {}" [AExc e].

Definition failure_response (e : exn) : response :=
  if is_JSONDecodeError e then Response (jsonify "error" "Invalid JSON") 400
  else Response (jsonify "error" "Internal server error") 500.

Definition pong : response := Response (jsonify "message" "Pong") 200.
Definition unauthorized : response :=
  Response (jsonify "error" "Invalid signature") 401.

Definition received_record (action : value) : record :=
  Rec INFO "Received pull_request event: {}" [AVal action].
Definition unhandled_action_record (action : value) : record :=
  Rec INFO "Unhandled pull request action: {}" [AVal action].
Definition unhandled_event_record (event_type : value) : record :=
  Rec INFO "Unhandled event type: {}" [AVal event_type].
Definition ping_record : record := Rec INFO "Received ping event from GitHub" [].
Definition invalid_signature_record : record :=
  Rec WARNING "Invalid webhook signature" [].

(* ================================================================== *)
(** ** Sample deliveries *)

(** The secret [config.py] falls back to when none is configured. *)
Definition default_secret : str := lit "your_webhook_secret_here".

(** JSON text, written with apostrophes where the document has quotation
    marks. *)
Definition json_text (s : string) : str :=
  map (fun c => if (c =? 39)%N then 34%N else c) (lit s).

(** The header value a sender holding [key] computes for [payload]. *)
Definition sign (key payload : bytes) : str :=
  lit "sha256=" ++ hexdigest (HMAC.hmac_sha256 key payload).

Definition headers (signature event_type : option str) (name : string)
  : option str :=
  if String.eqb name "X-Hub-Signature-256" then signature
  else if String.eqb name "X-GitHub-Event" then event_type
  else None.

(** A delivery signed under [default_secret]. *)
Definition delivery (event_type : option string) (payload : bytes) : request :=
  Request payload
    (headers (Some (sign (blit "your_webhook_secret_here") payload))
       (option_map lit event_type)).

Definition ascii_body (s : string) : bytes := map byte_of_N (json_text s).

(** A [closed] delivery for a merged pull request, and the object it
    decodes to. *)
Definition closed_merged_text : string :=
  "{'action':'closed','pull_request':{'number':7,'title':'Fix','merged':true},'repository':{'full_name':'o/r'},'sender':{'login':'u'}}".

Definition closed_merged_envelope : dict :=
  [(lit "action", VStr (lit "closed"));
   (lit "pull_request",
    VDict [(lit "number", VInt 7); (lit "title", VStr (lit "Fix"));
           (lit "merged", VBool true)]);
   (lit "repository", VDict [(lit "full_name", VStr (lit "o/r"))]);
   (lit "sender", VDict [(lit "login", VStr (lit "u"))])].

Definition closed_merged_delivery : request :=
  delivery (Some "pull_request"%string) (ascii_body closed_merged_text).

(** An [opened] delivery with every field the handler reads. *)
Definition opened_text : string :=
  "{'action':'opened','pull_request':{'number':7,'title':'Fix','html_url':'h'},'repository':{'full_name':'o/r'},'sender':{'login':'u'}}".

Definition opened_envelope : dict :=
  [(lit "action", VStr (lit "opened"));
   (lit "pull_request",
    VDict [(lit "number", VInt 7); (lit "title", VStr (lit "Fix"));
           (lit "html_url", VStr (lit "h"))]);
   (lit "repository", VDict [(lit "full_name", VStr (lit "o/r"))]);
   (lit "sender", VDict [(lit "login", VStr (lit "u"))])].

Definition opened_delivery : request :=
  delivery (Some "pull_request"%string) (ascii_body opened_text).

(** An [opened] delivery that carries nothing but its action. *)
Definition bare_opened_envelope : dict := [(lit "action", VStr (lit "opened"))].

Definition bare_opened_delivery : request :=
  delivery (Some "pull_request"%string) (ascii_body "{'action':'opened'}").

(** A [pull_request] delivery with an action the dispatcher does not know. *)
Definition labeled_envelope : dict := [(lit "action", VStr (lit "labeled"))].

Definition labeled_delivery : request :=
  delivery (Some "pull_request"%string) (ascii_body "{'action':'labeled'}").

(** A [ping] delivery with an empty object, one whose body is not JSON, and
    a delivery without the event header. *)
Definition ping_delivery : request :=
  delivery (Some "ping"%string) (ascii_body "{}").

Definition ping_not_json_delivery : request :=
  delivery (Some "ping"%string) (ascii_body "hello").

Definition untyped_delivery : request := delivery None (ascii_body "{}").

(** A correctly signed delivery whose body is the single octet FF, which
    is not UTF-8. *)
Definition undecodable_delivery : request :=
  delivery (Some "pull_request"%string) [xff].

(** A delivery whose signature header, past its prefix, is U+00E9. *)
Definition non_ascii_signature_delivery : request :=
  Request (ascii_body "{}")
    (headers (Some (lit "sha256=" ++ [233%N])) (Some (lit "ping"))).

(* ================================================================== *)
(** ** Vocabulary for statements about the handlers *)

(** [field v k] is the value under key [k] when [v] is a [dict] holding
    it; [path v ks] follows a chain of keys. *)
Definition field (v : value) (k : string) : option value :=
  match v with
  | VDict d => dict_lookup d (lit k)
  | _ => None
  end.

Fixpoint path (v : value) (ks : list string) : option value :=
  match ks with
  | [] => Some v
  | k :: ks' =>
      match field v k with
      | Some v' => path v' ks'
      | None => None
      end
  end.

Definition has (v : value) (ks : list string) : bool :=
  match path v ks with
  | Some _ => true
  | None => false
  end.

(** The fields each handler reads unconditionally, as chains of keys. *)
Definition required (h : handler) : list (list string) :=
  (match h with
   | Opened =>
       [["pull_request"; "number"]; ["pull_request"; "title"];
        ["pull_request"; "html_url"]; ["repository"; "full_name"];
        ["sender"; "login"]]
   | Closed =>
       [["pull_request"; "number"]; ["pull_request"; "title"];
        ["pull_request"; "merged"]; ["repository"; "full_name"];
        ["sender"; "login"]]
   | Merged =>
       [["pull_request"; "number"]; ["pull_request"; "title"];
        ["pull_request"; "merge_commit_sha"]; ["repository"; "full_name"];
        ["sender"; "login"]]
   | ReviewRequested =>
       [["pull_request"; "number"]; ["pull_request"; "title"];
        ["repository"; "full_name"]]
   | ReviewSubmitted =>
       [["pull_request"; "number"]; ["pull_request"; "title"];
        ["repository"; "full_name"]; ["sender"; "login"];
        ["review"; "state"]]
   | Synchronize =>
       [["pull_request"; "number"]; ["pull_request"; "title"];
        ["pull_request"; "head"; "sha"]; ["repository"; "full_name"];
        ["sender"; "login"]]
   end)%string.

(** An optional object under [k] is usable when it is absent, or falsy,
    or holds [sub]. *)
Definition optional_ok (v : value) (k sub : string) : bool :=
  match field v k with
  | Some o => if truthy o then has o [sub] else true
  | None => true
  end.

(** Everything a handler reads is there. *)
Definition complete (h : handler) (payload : value) : bool :=
  forallb (has payload) (required h)
  && match h with
     | ReviewRequested =>
         optional_ok payload "requested_reviewer" "login"
         && optional_ok payload "requested_team" "name"
     | _ => true
     end.

(** The values found along the given chains of keys. *)
Definition values_at (payload : value) (paths : list (list string))
  : list value :=
  flat_map (fun ks => match path payload ks with
                      | Some v => [v]
                      | None => []
                      end) paths.

(** The item under [sub] of a truthy object under [k]. *)
Definition optional (v : value) (k sub : string) : list (list string) :=
  match field v k with
  | Some o => if truthy o then [[k; sub]] else []
  | None => []
  end.

(** The fields a handler puts into its messages: every field it requires,
    and the conditional ones when their guard holds. *)
Definition interpolated (h : handler) (payload : value)
  : list (list string) :=
  required h
  ++ match h with
     | ReviewRequested =>
         optional payload "requested_reviewer" "login"
         ++ optional payload "requested_team" "name"
     | ReviewSubmitted =>
         match path payload ["review"; "body"]%string with
         | Some b => if truthy b then [["review"; "body"]%string] else []
         | None => []
         end
     | _ => []
     end.

(** Everything a handler reads is there, and everything it puts into a
    message converts to text. *)
Definition usable (h : handler) (payload : value) : bool :=
  complete h payload
  && forallb renders (values_at payload (interpolated h payload)).

(** The values a handler puts into its messages are scalars. *)
Definition scalars (h : handler) (payload : value) : bool :=
  forallb scalar (values_at payload (interpolated h payload)).

(* ================================================================== *)
(** ** The runs of the endpoint *)

(** The ten ways a request can go, each with the trace and the response it
    produces. *)
Inductive run_of (secret : str) (loads : str -> outcome value)
    (handlers : handler -> value -> M record unit) (req : request)
  : list event * response -> Prop :=
| run_rejected (t : list record) :
    verify_webhook_signature (get_data req) (signature_of req) secret
    = (t, Return false) ->
    run_of secret loads handlers req
      (map Log t ++ [Log invalid_signature_record], unauthorized)
| run_verifier_raised (t : list record) (e : exn) :
    verify_webhook_signature (get_data req) (signature_of req) secret
    = (t, Raise e) ->
    run_of secret loads handlers req
      (map Log t ++ [Log (failure_record e)], failure_response e)
| run_undecodable :
    verified secret req ->
    UTF8.decode (get_data req) = None ->
    run_of secret loads handlers req
      ([Log (failure_record UnicodeDecodeError)],
       failure_response UnicodeDecodeError)
| run_not_loaded (text : str) (e : exn) :
    verified secret req ->
    UTF8.decode (get_data req) = Some text ->
    loads text = Raise e ->
    run_of secret loads handlers req
      ([Parse text; Log (failure_record e)], failure_response e)
| run_not_object (text : str) (data : value) :
    verified secret req ->
    UTF8.decode (get_data req) = Some text ->
    loads text = Return data ->
    event_type_of req = Some (lit "pull_request") ->
    (forall d, data <> VDict d) ->
    run_of secret loads handlers req
      ([Parse text; Log (failure_record AttributeError)],
       failure_response AttributeError)
| run_unrouted (text : str) (d : dict) :
    verified secret req ->
    UTF8.decode (get_data req) = Some text ->
    loads text = Return (VDict d) ->
    event_type_of req = Some (lit "pull_request") ->
    route (action_of d) = None ->
    run_of secret loads handlers req
      ([Parse text; Log (received_record (action_of d));
        Log (unhandled_action_record (action_of d))], received)
| run_handled (text : str) (d : dict) (h : handler) (t : list record) :
    verified secret req ->
    UTF8.decode (get_data req) = Some text ->
    loads text = Return (VDict d) ->
    event_type_of req = Some (lit "pull_request") ->
    route (action_of d) = Some h ->
    handlers h (VDict d) = (t, Return tt) ->
    run_of secret loads handlers req
      (Parse text :: Log (received_record (action_of d))
       :: Call h (VDict d) :: map Log t, received)
| run_handler_raised (text : str) (d : dict) (h : handler) (t : list record)
    (e : exn) :
    verified secret req ->
    UTF8.decode (get_data req) = Some text ->
    loads text = Return (VDict d) ->
    event_type_of req = Some (lit "pull_request") ->
    route (action_of d) = Some h ->
    handlers h (VDict d) = (t, Raise e) ->
    run_of secret loads handlers req
      (Parse text :: Log (received_record (action_of d))
       :: Call h (VDict d) :: map Log t ++ [Log (failure_record e)],
       failure_response e)
| run_ping (text : str) (data : value) :
    verified secret req ->
    UTF8.decode (get_data req) = Some text ->
    loads text = Return data ->
    event_type_of req = Some (lit "ping") ->
    run_of secret loads handlers req ([Parse text; Log ping_record], pong)
| run_other (text : str) (data : value) :
    verified secret req ->
    UTF8.decode (get_data req) = Some text ->
    loads text = Return data ->
    event_type_of req <> Some (lit "pull_request") ->
    event_type_of req <> Some (lit "ping") ->
    run_of secret loads handlers req
      ([Parse text;
        Log (unhandled_event_record (of_optional (event_type_of req)))],
       received).

(** The run of a [pull_request] delivery with action [action] that is
    dispatched to [h]: after the call come the records the handler wrote,
    and the handler's outcome, [run], decides how the endpoint answers. *)
Definition dispatched (text : str) (action : value) (h : handler)
    (data : value) (run : M record unit) : list event * response :=
  match run with
  | (t, Return _) =>
      (Parse text :: Log (received_record action) :: Call h data :: map Log t,
       received)
  | (t, Raise e) =>
      (Parse text :: Log (received_record action) :: Call h data
       :: map Log t ++ [Log (failure_record e)],
       failure_response e)
  end.

(** The same delivery when the action is not routed. *)
Definition undispatched (text : str) (action : value)
  : list event * response :=
  ([Parse text; Log (received_record action);
    Log (unhandled_action_record action)], received).

(** A [pull_request] delivery whose body is a JSON array. *)
Definition array_delivery : request :=
  delivery (Some "pull_request"%string) (ascii_body "[]").

(* ================================================================== *)
(** ** [config.py] *)

(** [os.getenv(key, default)], the environment being a lookup from names
    to values. *)
Definition getenv (environ : string -> option str) (key : string) (default : str)
  : str :=
  match environ key with
  | Some v => v
  | None => default
  end.

Definition WEBHOOK_SECRET (environ : string -> option str) : str :=
  getenv environ "WEBHOOK_SECRET" (lit "your_webhook_secret_here").

Definition HOST (environ : string -> option str) : str :=
  getenv environ "HOST" (lit "127.0.0.1").

Definition LOG_LEVEL (environ : string -> option str) : str :=
  getenv environ "LOG_LEVEL" (lit "INFO").

(** An environment that sets the secret to the empty string, and one that
    sets nothing. *)
Definition blank_secret_environ (name : string) : option str :=
  if String.eqb name "WEBHOOK_SECRET" then Some [] else None.

Definition empty_environ (name : string) : option str := None.

(** A closed pull request that was not merged upstream lacks nothing, but
    an envelope without the [merged] flag makes the closed-handler stop
    half way. *)
Definition closed_without_flag_envelope : dict :=
  [(lit "action", VStr (lit "closed"));
   (lit "pull_request",
    VDict [(lit "number", VInt 7); (lit "title", VStr (lit "Fix"))]);
   (lit "repository", VDict [(lit "full_name", VStr (lit "o/r"))]);
   (lit "sender", VDict [(lit "login", VStr (lit "u"))])].



(* ================================================================== *)
(** ** [example_handlers.py] *)

(** What the example handlers do besides returning: lines printed, lines
    appended to a file, and HTTP posts of a JSON object with one field. *)
Inductive output :=
| Printed (msg : string) (args : list arg)
| Appended (file : string) (msg : string) (args : list arg)
| Posted (url : str) (key : string) (text : str).

(** How [requests.post] can go: a response with its status code, a
    [RequestException], or any other exception. *)
Inductive posting :=
| Responded (status : nat)
| RequestFailed (e : exn)
| PostCrashed (e : exn).



Section ExampleHandlers.
(** The world around the example handlers: the network behind
    [requests.post]; whether a file can be opened for appending; and what
    writing a line to its stream raises, if anything: [UnicodeEncodeError]
    when the codec of [sys.stdout] or of the file cannot encode the text,
    [OSError] when the descriptor fails. *)
Variable post : str -> string -> str -> posting.
Variable can_append : string -> bool.
Variable refused : output -> option exn.







End ExampleHandlers.

(** A network that answers every post with the given status, and one that
    fails every post. *)
Definition answering (status : nat) (url : str) (key : string) (text : str)
  : posting := Responded status.










Definition mute_file (line : output) : option exn :=
  match line with
  | Appended _ _ _ => Some UnicodeEncodeError
  | _ => None
  end.

(** An integer of 4301 digits, and an envelope whose pull request bears it
    as its number. *)
Definition long_number : value := VInt digit_bound.

Definition long_number_envelope : dict :=
  [(lit "action", VStr (lit "opened"));
   (lit "pull_request",
    VDict [(lit "number", long_number); (lit "title", VStr (lit "Fix"));
           (lit "html_url", VStr (lit "h"))]);
   (lit "repository", VDict [(lit "full_name", VStr (lit "o/r"))]);
   (lit "sender", VDict [(lit "login", VStr (lit "u"))])].

(* ================================================================== *)
(** * Properties *)

(** ** Test vectors for the hash *)

Example sha256_abc :
  hexdigest (SHA256.sha256 (blit "abc"))
  = lit "ba7816bf8f01cfea414140de5dae2223b00361a396177a9cb410ff61f20015ad".
Proof. vm_compute. reflexivity. Qed.

Example hmac_sha256_rfc_style :
  hexdigest (HMAC.hmac_sha256 (blit "key")
               (blit "The quick brown fox jumps over the lazy dog"))
  = lit "f7bc83f430538424b13298e6aa6fb143ef4d59a14946175997479dbc2d1a3cd8".
Proof. vm_compute. reflexivity. Qed.

Example hmac_sha256_long_key :
  hexdigest (HMAC.hmac_sha256 (repeat "k"%byte 100) (blit "hello"))
  = lit "3fd578d761a4f6703009e92d2e8a0aea22ab9ab50d4ad250dc95d8c369dec3f5".
Proof. vm_compute. reflexivity. Qed.

(* ================================================================== *)
(** ** Effects: basic equations *)

Lemma bind_ret {W A B} (a : A) (k : A -> M W B) : bind (ret a) k = k a.
Proof. unfold bind, ret. destruct (k a); reflexivity. Qed.

Lemma bind_return {W A B} (t : list W) (a : A) (k : A -> M W B) :
  bind (t, Return a) k = (t ++ fst (k a), snd (k a)).
Proof. unfold bind. destruct (k a); reflexivity. Qed.

Lemma bind_raise {W A B} (t : list W) (e : exn) (k : A -> M W B) :
  bind (t, Raise e) k = (t, Raise e).
Proof. reflexivity. Qed.

Lemma lift_return {A} (t : list record) (a : A) :
  lift (t, Return a) = (map Log t, Return a).
Proof. reflexivity. Qed.

Lemma calls_app (t u : list event) : calls (t ++ u) = calls t ++ calls u.
Proof.
  induction t as [|[r|h v|s] t' IH]; simpl; auto.
  now rewrite IH.
Qed.

Lemma calls_logs (l : list record) : calls (map Log l) = [].
Proof. induction l; simpl; auto. Qed.

Lemma parses_app (t u : list event) : parses (t ++ u) = parses t ++ parses u.
Proof.
  induction t as [|[r|h v|s] t' IH]; simpl; auto.
  now rewrite IH.
Qed.

Lemma parses_logs (l : list record) : parses (map Log l) = [].
Proof. induction l; simpl; auto. Qed.

(* ================================================================== *)
(** ** The verifier *)

Lemma str_eqb_refl (s : str) : str_eqb s s = true.
Proof. induction s as [|c s IH]; simpl; [|rewrite N.eqb_refl]; auto. Qed.

Lemma str_eqb_eq (a b : str) : str_eqb a b = true <-> a = b.
Proof.
  split; [|intros ->; apply str_eqb_refl].
  revert b. induction a as [|c a IH]; intros [|d b]; simpl; try discriminate; auto.
  intros H. apply andb_prop in H as [Hc Hs].
  apply N.eqb_eq in Hc. apply IH in Hs. congruence.
Qed.

Lemma hex_byte_ascii (b : byte) : is_ascii (hex_byte b) = true.
Proof. destruct b; reflexivity. Qed.

(** A hexadecimal digest is ASCII text, so it is a legal argument of
    [compare_digest]. *)
Lemma hexdigest_ascii (d : bytes) : is_ascii (hexdigest d) = true.
Proof.
  unfold is_ascii, hexdigest.
  induction d as [|b d IH].
  - reflexivity.
  - change (forallb (fun c => (c <? 128)%N) (hex_byte b ++ flat_map hex_byte d)
            = true).
    rewrite forallb_app, IH, andb_true_r. apply hex_byte_ascii.
Qed.

Lemma hexdigest_length (d : bytes) : length (hexdigest d) = 2 * length d.
Proof.
  unfold hexdigest. induction d as [|b d IH]; simpl; auto.
  rewrite IH. lia.
Qed.

(** The three early exits. *)
Lemma verify_absent_signature (payload : bytes) (secret : str) :
  verify_webhook_signature payload None secret = ([missing_record], Return false).
Proof. reflexivity. Qed.

Lemma verify_empty_signature (payload : bytes) (secret : str) :
  verify_webhook_signature payload (Some []) secret
  = ([missing_record], Return false).
Proof. reflexivity. Qed.

Lemma verify_empty_secret (payload : bytes) (signature : option str) :
  verify_webhook_signature payload signature [] = ([missing_record], Return false).
Proof.
  destruct signature as [s|]; [|reflexivity].
  unfold verify_webhook_signature. simpl is_empty.
  now rewrite orb_true_r.
Qed.

Lemma verify_wrong_prefix (payload : bytes) (s secret : str) :
  startswith s (lit "sha256=") = false ->
  result (verify_webhook_signature payload (Some s) secret) = Return false.
Proof.
  intros Hp. unfold verify_webhook_signature.
  destruct (is_empty s || is_empty secret); [reflexivity|].
  rewrite Hp. reflexivity.
Qed.

(** Past the guards the verifier returns the comparison, or raises: a
    secret with a lone surrogate has no UTF-8 encoding, and
    [compare_digest] refuses text that is not ASCII. *)
Lemma verify_past_guards (payload : bytes) (s secret : str) :
  is_empty s = false -> is_empty secret = false ->
  startswith s (lit "sha256=") = true ->
  verify_webhook_signature payload (Some s) secret
  = match UTF8.encode secret with
    | None => ([], Raise UnicodeEncodeError)
    | Some key =>
        if is_ascii (slice_from 7 s)
        then ([], Return (str_eqb (slice_from 7 s)
                            (hexdigest (HMAC.hmac_sha256 key payload))))
        else ([], Raise TypeError)
    end.
Proof.
  intros Hs Hk Hp. unfold verify_webhook_signature.
  rewrite Hs, Hk, Hp. cbn [orb negb].
  unfold encode_utf8. destruct (UTF8.encode secret) as [key|]; [|reflexivity].
  rewrite bind_ret. unfold compare_digest.
  rewrite hexdigest_ascii, andb_true_r.
  destruct (is_ascii (slice_from 7 s)); reflexivity.
Qed.

(** Whenever the verifier answers [True] it has logged nothing. *)
Lemma verify_true_silent (payload : bytes) (signature : option str) (secret : str) :
  result (verify_webhook_signature payload signature secret) = Return true ->
  verify_webhook_signature payload signature secret = ([], Return true).
Proof.
  destruct signature as [s|]; [|discriminate].
  destruct (is_empty s) eqn:Hs.
  { destruct s; [|discriminate]. discriminate. }
  destruct (is_empty secret) eqn:Hk.
  { destruct secret; [|discriminate]. rewrite verify_empty_secret. discriminate. }
  destruct (startswith s (lit "sha256=")) eqn:Hp.
  2:{ intros H. rewrite (verify_wrong_prefix payload s secret Hp) in H. discriminate. }
  rewrite (verify_past_guards payload s secret Hs Hk Hp).
  destruct (UTF8.encode secret); [|discriminate].
  destruct (is_ascii (slice_from 7 s)); [|discriminate].
  unfold result; cbn [snd]. intros H. rewrite H. reflexivity.
Qed.

(** The verifier raises in exactly two situations. *)
Lemma verify_raises (payload : bytes) (signature : option str) (secret : str) (e : exn) :
  result (verify_webhook_signature payload signature secret) = Raise e <->
  exists s, signature = Some s /\ is_empty s = false /\ is_empty secret = false
            /\ startswith s (lit "sha256=") = true
            /\ ((UTF8.encode secret = None /\ e = UnicodeEncodeError)
                \/ (UTF8.encode secret <> None
                    /\ is_ascii (slice_from 7 s) = false /\ e = TypeError)).
Proof.
  split.
  - destruct signature as [s|]; [|discriminate].
    destruct (is_empty s) eqn:Hs.
    { destruct s; discriminate. }
    destruct (is_empty secret) eqn:Hk.
    { destruct secret; [|discriminate]. rewrite verify_empty_secret. discriminate. }
    destruct (startswith s (lit "sha256=")) eqn:Hp.
    2:{ intros H. rewrite (verify_wrong_prefix payload s secret Hp) in H.
        discriminate. }
    rewrite (verify_past_guards payload s secret Hs Hk Hp).
    intros H. exists s. repeat split; try assumption.
    destruct (UTF8.encode secret) as [key|].
    + destruct (is_ascii (slice_from 7 s)); [discriminate|].
      right. repeat split; [discriminate|]. simpl in H. congruence.
    + left. split; [reflexivity|]. simpl in H. congruence.
  - intros (s & -> & Hs & Hk & Hp & H).
    rewrite (verify_past_guards payload s secret Hs Hk Hp).
    destruct H as [[-> ->]|(Hn & Ha & ->)]; [reflexivity|].
    destruct (UTF8.encode secret); [|congruence]. now rewrite Ha.
Qed.

Lemma startswith_app (p s : str) : startswith (p ++ s) p = true.
Proof.
  induction p as [|c p IH]; [destruct s; reflexivity|].
  simpl. now rewrite N.eqb_refl, IH.
Qed.

(** C1 (amended). For every payload and every non-empty secret, with [key]
    the UTF-8 encoding of the secret, the verifier answers [True] to the
    header made of the prefix [sha256=] followed by the lowercase
    hexadecimal HMAC-SHA256 of the payload under [key]. *)
Theorem verify_accepts_own_signature (payload : bytes) (secret : str) (key : bytes) :
  is_empty secret = false ->
  UTF8.encode secret = Some key ->
  verify_webhook_signature payload
    (Some (lit "sha256=" ++ hexdigest (HMAC.hmac_sha256 key payload))) secret
  = ([], Return true).
Proof.
  intros Hk He.
  rewrite verify_past_guards; try assumption.
  - rewrite He. change (slice_from 7 (lit "sha256=" ++ ?x)) with x.
    now rewrite hexdigest_ascii, str_eqb_refl.
  - reflexivity.
  - apply startswith_app.
Qed.

Lemma verify_accepts_own_signature_witness :
  verify_webhook_signature (blit "{}")
    (Some (lit "sha256="
           ++ hexdigest (HMAC.hmac_sha256 (blit "your_webhook_secret_here")
                           (blit "{}"))))
    (lit "your_webhook_secret_here")
  = ([], Return true).
Proof.
  apply (verify_accepts_own_signature (blit "{}") (lit "your_webhook_secret_here")
           (blit "your_webhook_secret_here")); reflexivity.
Defined.

(** C1 as stated fails for the empty secret: the header is the correct
    HMAC under the empty key, and the verifier answers [False]. *)
Lemma verify_rejects_signature_of_empty_secret :
  UTF8.encode [] = Some []
  /\ verify_webhook_signature (blit "{}")
       (Some (lit "sha256=" ++ hexdigest (HMAC.hmac_sha256 [] (blit "{}")))) []
     = ([missing_record], Return false).
Proof. split; [reflexivity|]. apply verify_empty_secret. Qed.

(** C2. A header whose text after the prefix is not ASCII makes the
    verifier raise instead of answering: here the header is [sha256=]
    followed by U+00E9. *)
Theorem verify_raises_on_non_ascii_signature :
  verify_webhook_signature (blit "{}") (Some (lit "sha256=" ++ [233%N]))
    (lit "your_webhook_secret_here")
  = ([], Raise TypeError).
Proof. rewrite verify_past_guards; reflexivity. Qed.

Lemma lookup_route_exact (table : list (string * handler)) (a : str) (h : handler) :
  lookup_route table a = Some h ->
  exists name, In (name, h) table /\ a = lit name.
Proof.
  induction table as [|[name h'] table IH]; simpl; [discriminate|].
  destruct (str_eqb a (lit name)) eqn:E.
  - intros [= ->]. apply str_eqb_eq in E. exists name. auto.
  - intros H. destruct (IH H) as (n & Hin & ->). exists n. auto.
Qed.

Lemma eq_str_spec (v : value) (s : string) :
  eq_str v s = true <-> v = VStr (lit s).
Proof.
  destruct v; simpl; try (split; [discriminate|intros [=]]).
  rewrite str_eqb_eq. split; congruence.
Qed.

Lemma eq_str_false (v : value) (s : string) :
  v <> VStr (lit s) -> eq_str v s = false.
Proof.
  intros H. destruct (eq_str v s) eqn:E; [|reflexivity].
  apply eq_str_spec in E. contradiction.
Qed.

(* ================================================================== *)
(** ** The endpoint, case by case *)

Section EndpointCases.
Variable secret : str.
Variable loads : str -> outcome value.
Variable handlers : handler -> value -> M record unit.

Lemma webhook_raise (req : request) (t : list event) (e : exn) :
  webhook_try secret loads handlers req = (t, Raise e) ->
  webhook secret loads handlers req = (t ++ [Log (failure_record e)], failure_response e).
Proof.
  intros H. unfold webhook, failure_record, failure_response.
  rewrite H. destruct (is_JSONDecodeError e); reflexivity.
Qed.

Lemma webhook_return (req : request) (t : list event) (r : response) :
  webhook_try secret loads handlers req = (t, Return r) -> webhook secret loads handlers req = (t, r).
Proof. intros H. unfold webhook. now rewrite H. Qed.

(** The verifier answered [False]: 401, and nothing else happens. *)
Lemma webhook_try_rejected (req : request) (t : list record) :
  verify_webhook_signature (get_data req) (signature_of req) secret
  = (t, Return false) ->
  webhook_try secret loads handlers req
  = (map Log t ++ [Log invalid_signature_record], Return unauthorized).
Proof.
  intros H. unfold webhook_try. fold (signature_of req).
  rewrite H. reflexivity.
Qed.

(** The verifier raised: the second [except] clause answers. *)
Lemma webhook_try_verify_raised (req : request) (t : list record) (e : exn) :
  verify_webhook_signature (get_data req) (signature_of req) secret
  = (t, Raise e) ->
  webhook_try secret loads handlers req = (map Log t, Raise e).
Proof.
  intros H. unfold webhook_try. fold (signature_of req).
  rewrite H. reflexivity.
Qed.

(** Past the verifier: what is left of the [try] block. *)
Lemma webhook_try_verified (req : request) :
  verified secret req ->
  webhook_try secret loads handlers req
  = (text <- decode_utf8 (get_data req) ;;
     data <- parse loads text ;;
     let event_type := of_optional (event_type_of req) in
     if eq_str event_type "pull_request" then
       action <- get data "action" ;;
       log_info "Received pull_request event: {}" [action] ;;;
       (if eq_str action "opened" then call handlers Opened data
        else if eq_str action "closed" then call handlers Closed data
        else if eq_str action "merged" then call handlers Merged data
        else if eq_str action "review_requested" then call handlers ReviewRequested data
        else if eq_str action "submitted" then call handlers ReviewSubmitted data
        else if eq_str action "synchronize" then call handlers Synchronize data
        else log_info "Unhandled pull request action: {}" [action]) ;;;
       ret (received)
     else if eq_str event_type "ping" then
       log_info "Received ping event from GitHub" [] ;;;
       ret pong
     else
       log_info "Unhandled event type: {}" [event_type] ;;;
       ret (received)).
Proof.
  intros H. apply verify_true_silent in H.
  unfold webhook_try. fold (signature_of req).
  rewrite H. change (lift (@nil record, Return true)) with (@ret event bool true).
  rewrite bind_ret. reflexivity.
Qed.

(** The chain of comparisons is a lookup in the route table. *)
Lemma chain_is_route (action data : value) :
  (if eq_str action "opened" then call handlers Opened data
   else if eq_str action "closed" then call handlers Closed data
   else if eq_str action "merged" then call handlers Merged data
   else if eq_str action "review_requested" then call handlers ReviewRequested data
   else if eq_str action "submitted" then call handlers ReviewSubmitted data
   else if eq_str action "synchronize" then call handlers Synchronize data
   else log_info "Unhandled pull request action: {}" [action])
  = match route action with
    | Some h => call handlers h data
    | None => log_info "Unhandled pull request action: {}" [action]
    end.
Proof.
  destruct action; try reflexivity.
  unfold route, route_table, lookup_route, eq_str.
  repeat match goal with
         | |- context [str_eqb s ?l] => destruct (str_eqb s l); [reflexivity|]
         end.
  reflexivity.
Qed.

Lemma call_eq (h : handler) (data : value) :
  call handlers h data
  = (Call h data :: map Log (fst (handlers h data)), snd (handlers h data)).
Proof.
  unfold call, emit. rewrite bind_return. reflexivity.
Qed.

(** Undecodable body. *)
Lemma webhook_undecodable (req : request) :
  verified secret req ->
  UTF8.decode (get_data req) = None ->
  webhook secret loads handlers req
  = ([Log (failure_record UnicodeDecodeError)],
     failure_response UnicodeDecodeError).
Proof.
  intros Hv Hd. apply (webhook_raise req []).
  rewrite (webhook_try_verified req Hv). unfold decode_utf8. now rewrite Hd.
Qed.

(** The loader raised. *)
Lemma webhook_not_loaded (req : request) (text : str) (e : exn) :
  verified secret req ->
  UTF8.decode (get_data req) = Some text ->
  loads text = Raise e ->
  webhook secret loads handlers req = ([Parse text; Log (failure_record e)], failure_response e).
Proof.
  intros Hv Hd Hl. apply (webhook_raise req [Parse text]).
  rewrite (webhook_try_verified req Hv). unfold decode_utf8. rewrite Hd, bind_ret.
  unfold parse. now rewrite Hl.
Qed.

(** A [pull_request] delivery whose body is an object. *)
Lemma webhook_pull_request (req : request) (text : str) (d : dict) :
  verified secret req ->
  UTF8.decode (get_data req) = Some text ->
  loads text = Return (VDict d) ->
  event_type_of req = Some (lit "pull_request") ->
  webhook secret loads handlers req
  = let action := action_of d in
    match route action with
    | None =>
        ([Parse text; Log (received_record action);
          Log (unhandled_action_record action)], received)
    | Some h =>
        match handlers h (VDict d) with
        | (t, Return _) =>
            (Parse text :: Log (received_record action)
             :: Call h (VDict d) :: map Log t, received)
        | (t, Raise e) =>
            (Parse text :: Log (received_record action)
             :: Call h (VDict d) :: map Log t ++ [Log (failure_record e)],
             failure_response e)
        end
    end.
Proof.
  intros Hv Hd Hl He. cbv zeta.
  assert (Ht : webhook_try secret loads handlers req
               = match route (action_of d) with
                 | None =>
                     ([Parse text; Log (received_record (action_of d));
                       Log (unhandled_action_record (action_of d))],
                      Return received)
                 | Some h =>
                     match handlers h (VDict d) with
                     | (t, Return _) =>
                         (Parse text :: Log (received_record (action_of d))
                          :: Call h (VDict d) :: map Log t, Return received)
                     | (t, Raise e) =>
                         (Parse text :: Log (received_record (action_of d))
                          :: Call h (VDict d) :: map Log t, Raise e)
                     end
                 end).
  { rewrite (webhook_try_verified req Hv). unfold decode_utf8.
    rewrite Hd, bind_ret. unfold parse. rewrite Hl, bind_return, He.
    change (eq_str (of_optional (Some (lit "pull_request"))) "pull_request")
      with true.
    cbv iota. unfold get. fold (action_of d). rewrite bind_ret.
    rewrite chain_is_route.
    destruct (route (action_of d)) as [h|].
    - rewrite call_eq. destruct (handlers h (VDict d)) as [t [[]|e]];
        cbn -[lit]; rewrite ?app_nil_r; reflexivity.
    - reflexivity. }
  destruct (route (action_of d)) as [h|].
  - destruct (handlers h (VDict d)) as [t [[]|e]].
    + now apply webhook_return.
    + rewrite (webhook_raise req _ e Ht). reflexivity.
  - now apply webhook_return.
Qed.

(** A [pull_request] delivery whose body is not an object: [data.get]
    does not exist and the second [except] clause answers. *)
Lemma webhook_pull_request_not_object (req : request) (text : str) (data : value) :
  verified secret req ->
  UTF8.decode (get_data req) = Some text ->
  loads text = Return data ->
  event_type_of req = Some (lit "pull_request") ->
  (forall d, data <> VDict d) ->
  webhook secret loads handlers req
  = ([Parse text; Log (failure_record AttributeError)],
     failure_response AttributeError).
Proof.
  intros Hv Hd Hl He Hn. apply (webhook_raise req [Parse text]).
  rewrite (webhook_try_verified req Hv). unfold decode_utf8.
  rewrite Hd, bind_ret. unfold parse. rewrite Hl, bind_return, He.
  change (eq_str (of_optional (Some (lit "pull_request"))) "pull_request")
    with true.
  cbv iota. destruct data; try reflexivity. now destruct (Hn d).
Qed.

(** Any other delivery: the body is loaded and then ignored. *)
Lemma webhook_other_event (req : request) (text : str) (data : value) :
  verified secret req ->
  UTF8.decode (get_data req) = Some text ->
  loads text = Return data ->
  event_type_of req <> Some (lit "pull_request") ->
  webhook secret loads handlers req
  = if eq_str (of_optional (event_type_of req)) "ping"
    then ([Parse text; Log ping_record], pong)
    else ([Parse text;
           Log (unhandled_event_record (of_optional (event_type_of req)))],
          received).
Proof.
  intros Hv Hd Hl He.
  assert (Hn : eq_str (of_optional (event_type_of req)) "pull_request" = false).
  { apply eq_str_false. destruct (event_type_of req); simpl; congruence. }
  destruct (eq_str (of_optional (event_type_of req)) "ping") eqn:Hp;
    apply webhook_return;
    rewrite (webhook_try_verified req Hv); unfold decode_utf8;
    rewrite Hd, bind_ret; unfold parse; rewrite Hl, bind_return, Hn, Hp;
    reflexivity.
Qed.
End EndpointCases.

(** Without a signature header the endpoint answers 401 straight away: the
    body is neither decoded nor handed to the loader. *)
Lemma webhook_missing_signature
    (secret : str) (loads : str -> outcome value)
    (handlers : handler -> value -> M record unit) (req : request) :
  signature_of req = None ->
  webhook secret loads handlers req
  = ([Log missing_record; Log invalid_signature_record], unauthorized).
Proof.
  intros H. apply webhook_return.
  apply (webhook_try_rejected secret loads handlers req [missing_record]).
  now rewrite H.
Qed.

(** Whenever the verifier answers [False] the endpoint answers 401; the
    loader is not consulted and no handler is called. *)
Lemma webhook_rejected
    (secret : str) (loads : str -> outcome value)
    (handlers : handler -> value -> M record unit) (req : request) :
  result (verify_webhook_signature (get_data req) (signature_of req) secret)
  = Return false ->
  snd (webhook secret loads handlers req) = unauthorized
  /\ parses (fst (webhook secret loads handlers req)) = []
  /\ calls (fst (webhook secret loads handlers req)) = [].
Proof.
  destruct (verify_webhook_signature (get_data req) (signature_of req) secret)
    as [t r] eqn:Hv.
  unfold result; cbn [snd]. intros ->.
  rewrite (webhook_return secret loads handlers req _ _
             (webhook_try_rejected secret loads handlers req t Hv)).
  cbn [fst snd]. rewrite parses_app, calls_app, parses_logs, calls_logs.
  repeat apply conj; reflexivity.
Qed.

(** Whatever the request, the loader and the handlers, the endpoint calls
    at most one handler. *)
Lemma webhook_calls_at_most_one
    (secret : str) (loads : str -> outcome value)
    (handlers : handler -> value -> M record unit) (req : request) :
  length (calls (fst (webhook secret loads handlers req))) <= 1.
Proof.
  destruct (verify_webhook_signature (get_data req) (signature_of req) secret)
    as [t [[|]|e]] eqn:Hv.
  - assert (Hok : verified secret req) by (unfold verified; now rewrite Hv).
    destruct (UTF8.decode (get_data req)) as [text|] eqn:Hd.
    2:{ rewrite webhook_undecodable by assumption. simpl. lia. }
    destruct (loads text) as [data|e] eqn:Hl.
    2:{ rewrite (webhook_not_loaded secret loads handlers req text e) by assumption.
        simpl. lia. }
    destruct (eq_str (of_optional (event_type_of req)) "pull_request") eqn:He.
    + apply eq_str_spec in He.
      assert (He' : event_type_of req = Some (lit "pull_request")).
      { destruct (event_type_of req); simpl in He; congruence. }
      destruct data as [| | | | |l|d];
        try (rewrite (webhook_pull_request_not_object secret loads handlers
                        req text _ Hok Hd Hl He') by discriminate;
             simpl; lia).
      rewrite (webhook_pull_request secret loads handlers req text d)
        by assumption.
      cbv zeta. destruct (route (action_of d)) as [h|]; [|simpl; lia].
      destruct (handlers h (VDict d)) as [tr [[]|e]]; cbn [fst calls];
        rewrite ?calls_app, calls_logs; simpl; lia.
    + rewrite (webhook_other_event secret loads handlers req text data)
        by (try assumption; intros E; rewrite E in He; discriminate).
      destruct (eq_str (of_optional (event_type_of req)) "ping"); simpl; lia.
  - rewrite (webhook_return secret loads handlers req _ _
               (webhook_try_rejected secret loads handlers req t Hv)).
    cbn [fst]. rewrite calls_app, calls_logs. simpl. lia.
  - rewrite (webhook_raise secret loads handlers req _ e
               (webhook_try_verify_raised secret loads handlers req t e Hv)).
    cbn [fst]. rewrite calls_app, calls_logs. simpl. lia.
Qed.

(* ================================================================== *)
(** ** The reference loader always answers *)

Lemma skip_ws_length (s : str) : length (JSON.skip_ws s) <= length s.
Proof.
  induction s as [|c s IH]; simpl; [lia|].
  destruct (JSON.is_ws c); simpl; lia.
Qed.

Lemma strip_length (p s r : str) :
  JSON.strip p s = Some r -> length r + length p = length s.
Proof.
  revert s. induction p as [|c p IH]; intros [|d s]; simpl; try discriminate.
  - intros [= <-]. reflexivity.
  - intros [= <-]. simpl. lia.
  - destruct (c =? d)%N; [|discriminate]. intros H. apply IH in H. lia.
Qed.

Lemma push_some (c : N) (o : option (str * str)) (t r : str) :
  JSON.push c o = Some (t, r) -> exists t', o = Some (t', r).
Proof.
  destruct o as [[t' r']|]; simpl; [|discriminate].
  intros [= _ <-]. now exists t'.
Qed.

(** A scanned string leaves strictly less input than it was given. *)
Lemma scanstring_length (s t r : str) :
  JSON.scanstring s = Some (t, r) -> length r < length s.
Proof.
  remember (length s) as n eqn:Hn. revert s t r Hn.
  induction n as [n IH] using lt_wf_ind. intros s t r Hn.
  assert (IH' : forall s' t' r', length s' < n ->
                  JSON.scanstring s' = Some (t', r') -> length r' < length s').
  { intros s' t' r' Hlt. now apply (IH (length s') Hlt). }
  clear IH. subst n.
  destruct s as [|c s0]; [discriminate|]. cbn [JSON.scanstring].
  destruct (c =? 34)%N.
  { intros [= _ <-]. simpl. lia. }
  destruct (c =? 92)%N.
  2:{ destruct (c <=? 31)%N; [discriminate|].
      intros H. apply push_some in H as [t' H].
      apply IH' in H; simpl in *; lia. }
  destruct s0 as [|e r0]; [discriminate|].
  destruct (e =? 117)%N.
  2:{ destruct (JSON.unescape e); [|discriminate].
      intros H. apply push_some in H as [t' H].
      apply IH' in H; simpl in *; lia. }
  destruct r0 as [|h1 [|h2 [|h3 [|h4 r1]]]]; try discriminate.
  destruct r1 as [|b r1']; [discriminate|].
  destruct (JSON.hex4 h1 h2 h3 h4) as [u|]; [|discriminate].
  assert (Hone : forall o, JSON.push u (JSON.scanstring (b :: r1')) = Some o ->
                   o = (t, r) -> length r < length (c :: e :: h1 :: h2 :: h3 :: h4 :: b :: r1')).
  { intros o H ->. apply push_some in H as [t' H].
    apply IH' in H; simpl in *; lia. }
  destruct r1' as [|e' [|g1 [|g2 [|g3 [|g4 r2]]]]];
    try (intros H; now apply (Hone _ H)).
  destruct (JSON.is_high u && (b =? 92) && (e' =? 117) && negb (is_empty r2))%N;
    [|intros H; now apply (Hone _ H)].
  destruct (JSON.hex4 g1 g2 g3 g4) as [u2|]; [|discriminate].
  destruct (JSON.is_low u2); [|intros H; now apply (Hone _ H)].
  intros H. apply push_some in H as [t' H].
  apply IH' in H; simpl in *; lia.
Qed.

Lemma take_digits_length (s ds r : str) :
  JSON.take_digits s = (ds, r) -> length r <= length s.
Proof.
  revert ds r. induction s as [|c s IH]; simpl; intros ds r.
  - intros [= _ <-]. simpl. lia.
  - destruct (JSON.is_digit c).
    + destruct (JSON.take_digits s) as [ds' r'] eqn:E.
      intros [= _ <-]. specialize (IH ds' r' eq_refl). lia.
    + intros [= _ <-]. simpl. lia.
Qed.

Lemma int_part_length (c : N) (r ds rest : str) :
  JSON.int_part c r = (ds, rest) -> length rest <= length r.
Proof.
  unfold JSON.int_part. destruct (c =? 48)%N.
  - intros [= _ <-]. lia.
  - destruct (JSON.take_digits r) as [ds' r'] eqn:E.
    intros [= _ <-]. now apply take_digits_length in E.
Qed.

Lemma frac_part_length (s ds rest : str) :
  JSON.frac_part s = (ds, rest) -> length rest <= length s.
Proof.
  unfold JSON.frac_part.
  destruct s as [|p [|d r]]; try (intros [= _ <-]; lia).
  destruct ((p =? 46)%N && JSON.is_digit d); [|intros [= _ <-]; lia].
  destruct (JSON.take_digits r) as [ds' r'] eqn:E.
  intros [= _ <-]. apply take_digits_length in E. simpl. lia.
Qed.

Lemma exp_part_length (s : str) (e : option Z) (rest : str) :
  JSON.exp_part s = (e, rest) -> length rest <= length s.
Proof.
  unfold JSON.exp_part.
  destruct s as [|c r]; [intros [= _ <-]; lia|].
  destruct ((c =? 101) || (c =? 69))%N; [|intros [= _ <-]; lia].
  assert (H : forall r', length r' <= length r ->
                (let (ds, rest0) := JSON.take_digits r' in
                 match ds with
                 | [] => (None, c :: r)
                 | _ :: _ =>
                     (Some (Z.of_N (JSON.decimal ds)), rest0)
                 end) = (e, rest) \/
                (let (ds, rest0) := JSON.take_digits r' in
                 match ds with
                 | [] => (None, c :: r)
                 | _ :: _ =>
                     (Some (- Z.of_N (JSON.decimal ds))%Z, rest0)
                 end) = (e, rest) ->
                length rest <= length (c :: r)).
  { intros r' Hr'. destruct (JSON.take_digits r') as [ds rest0] eqn:E.
    apply take_digits_length in E.
    destruct ds; intros [[= _ <-]|[= _ <-]]; simpl; lia. }
  destruct (JSON.strip [45%N] r) as [t|] eqn:E1.
  - apply strip_length in E1. intros H1. apply (H t); [lia|now right].
  - destruct (JSON.strip [43%N] r) as [t|] eqn:E2.
    + apply strip_length in E2. intros H1. apply (H t); [lia|now left].
    + intros H1. apply (H r); [lia|now left].
Qed.

(** So does a scanned number. *)
Lemma scan_number_length (s : str) (v : value) (r : str) :
  JSON.scan_number s = JSON.Scanned v r -> length r < length s.
Proof.
  unfold JSON.scan_number.
  assert (H : forall neg s1, length s1 <= length s ->
                match s1 with
                | [] => JSON.Invalid
                | c :: r0 =>
                    if JSON.is_digit c then
                      let (int_digits, r1) := JSON.int_part c r0 in
                      let (frac, r2) := JSON.frac_part r1 in
                      let (expo, r3) := JSON.exp_part r2 in
                      if JSON.int_refused int_digits frac expo then JSON.Refused
                      else JSON.Scanned
                             (JSON.number_value neg int_digits frac expo) r3
                    else JSON.Invalid
                end = JSON.Scanned v r -> length r < length s).
  { intros neg [|c r0] Hle; [discriminate|].
    destruct (JSON.is_digit c); [|discriminate].
    destruct (JSON.int_part c r0) as [ip r1] eqn:E1.
    destruct (JSON.frac_part r1) as [fp r2] eqn:E2.
    destruct (JSON.exp_part r2) as [ex r3] eqn:E3.
    apply int_part_length in E1. apply frac_part_length in E2.
    apply exp_part_length in E3.
    destruct (JSON.int_refused ip fp ex); [discriminate|].
    intros [= _ <-]. simpl in Hle. lia. }
  destruct (JSON.strip [45%N] s) as [t|] eqn:E.
  - apply strip_length in E. apply H. lia.
  - apply H. lia.
Qed.

Lemma keyword_length (w : string) (v : value) (s : str) (other : JSON.scan value)
    (v' : value) (r : str) :
  w <> EmptyString ->
  JSON.keyword w v s other = JSON.Scanned v' r ->
  length r < length s \/ other = JSON.Scanned v' r.
Proof.
  intros Hw. unfold JSON.keyword.
  destruct (JSON.strip (lit w) s) as [rest|] eqn:E; [|now right].
  apply strip_length in E. intros [= _ <-]. left.
  destruct w as [|a w]; [contradiction|]. simpl in E. lia.
Qed.

(** Every scanner consumes input, whatever the counter. *)
Lemma scan_consumes (n : nat) :
  (forall s v r, JSON.scan_once n s = JSON.Scanned v r -> length r < length s)
  /\ (forall s acc v r,
        JSON.members n s acc = JSON.Scanned v r -> length r < length s)
  /\ (forall s acc v r,
        JSON.elements n s acc = JSON.Scanned v r -> length r < length s).
Proof.
  induction n as [|n (IHo & IHm & IHe)]; [repeat split; discriminate|].
  assert (Ho : forall s v r,
             JSON.scan_once (S n) s = JSON.Scanned v r -> length r < length s).
  { intros [|c s0] v r; [discriminate|]. cbn [JSON.scan_once].
    assert (Hnum : forall w v0, w <> EmptyString ->
               JSON.keyword w v0 (c :: s0) (JSON.scan_number (c :: s0))
               = JSON.Scanned v r -> length r < length (c :: s0)).
    { intros w v0 Hw H. apply keyword_length in H as [H|H]; [assumption| |assumption].
      now apply scan_number_length in H. }
    destruct (c =? 34)%N.
    { destruct (JSON.scanstring s0) as [[t rest]|] eqn:E; [|discriminate].
      apply scanstring_length in E. intros [= _ <-]. cbn [length]. lia. }
    destruct (c =? 123)%N.
    { pose proof (skip_ws_length s0).
      destruct (JSON.strip [125%N] (JSON.skip_ws s0)) as [rest|] eqn:E.
      - apply strip_length in E. intros [= _ <-]. cbn [length] in *. lia.
      - intros H1. apply IHm in H1. simpl. lia. }
    destruct (c =? 91)%N.
    { pose proof (skip_ws_length s0).
      destruct (JSON.strip [93%N] (JSON.skip_ws s0)) as [rest|] eqn:E.
      - apply strip_length in E. intros [= _ <-]. cbn [length] in *. lia.
      - intros H1. apply IHe in H1. simpl. lia. }
    repeat match goal with
           | |- (if ?b then _ else _) = _ -> _ =>
               destruct b; [apply Hnum; discriminate|]
           end.
    apply scan_number_length. }
  split; [exact Ho|]. split.
  - intros s acc v r. cbn [JSON.members].
    destruct (JSON.strip [34%N] s) as [r0|] eqn:E0; [|discriminate].
    apply strip_length in E0.
    destruct (JSON.scanstring r0) as [[key r1]|] eqn:E1; [|discriminate].
    apply scanstring_length in E1. pose proof (skip_ws_length r1).
    destruct (JSON.strip [58%N] (JSON.skip_ws r1)) as [r2|] eqn:E2; [|discriminate].
    apply strip_length in E2. pose proof (skip_ws_length r2).
    destruct (JSON.scan_once n (JSON.skip_ws r2)) as [v0 r3| | |] eqn:E3;
      try discriminate.
    apply IHo in E3. pose proof (skip_ws_length r3).
    destruct (JSON.strip [125%N] (JSON.skip_ws r3)) as [rest|] eqn:E4.
    { apply strip_length in E4. intros [= _ <-]. cbn [length] in *. lia. }
    destruct (JSON.strip [44%N] (JSON.skip_ws r3)) as [r4|] eqn:E5; [|discriminate].
    apply strip_length in E5. pose proof (skip_ws_length r4).
    intros H3. apply IHm in H3. cbn [length] in *. lia.
  - intros s acc v r. cbn [JSON.elements].
    destruct (JSON.scan_once n s) as [v0 r1| | |] eqn:E1; try discriminate.
    apply IHo in E1. pose proof (skip_ws_length r1).
    destruct (JSON.strip [93%N] (JSON.skip_ws r1)) as [rest|] eqn:E2.
    { apply strip_length in E2. intros [= _ <-]. cbn [length] in *. lia. }
    destruct (JSON.strip [44%N] (JSON.skip_ws r1)) as [r2|] eqn:E3; [|discriminate].
    apply strip_length in E3. pose proof (skip_ws_length r2).
    intros H3. apply IHe in H3. cbn [length] in *. lia.
Qed.

Lemma keyword_exhausted (w : string) (v : value) (s : str) (other : JSON.scan value) :
  JSON.keyword w v s other = JSON.Exhausted -> other = JSON.Exhausted.
Proof.
  unfold JSON.keyword. destruct (JSON.strip (lit w) s); [discriminate|auto].
Qed.

Lemma scan_number_not_exhausted (s : str) :
  JSON.scan_number s <> JSON.Exhausted.
Proof.
  unfold JSON.scan_number.
  destruct (JSON.strip [45%N] s) as [[|c r]|]; try discriminate;
    try (destruct s as [|c r]; [discriminate|]);
    (destruct (JSON.is_digit c); [|discriminate]);
    destruct (JSON.int_part c r) as [ip r1];
    destruct (JSON.frac_part r1) as [fp r2];
    destruct (JSON.exp_part r2) as [ex r3];
    destruct (JSON.int_refused ip fp ex); discriminate.
Qed.

(** A counter above twice the length of the input is never used up. *)
Lemma scan_fuel (n : nat) :
  (forall s, 2 * length s + 1 <= n -> JSON.scan_once n s <> JSON.Exhausted)
  /\ (forall s acc,
        2 * length s + 1 <= n -> JSON.members n s acc <> JSON.Exhausted)
  /\ (forall s acc,
        2 * length s + 2 <= n -> JSON.elements n s acc <> JSON.Exhausted).
Proof.
  induction n as [|n (IHo & IHm & IHe)]; [repeat split; intros; lia|].
  assert (Ho : forall s, 2 * length s + 1 <= S n ->
                 JSON.scan_once (S n) s <> JSON.Exhausted).
  { intros [|c s0] Hn; [discriminate|]. cbn [JSON.scan_once].
    assert (Hnum : forall w v0,
               JSON.keyword w v0 (c :: s0) (JSON.scan_number (c :: s0))
               <> JSON.Exhausted).
    { intros w v0 H. apply keyword_exhausted in H.
      now apply scan_number_not_exhausted in H. }
    pose proof (skip_ws_length s0). cbn [length] in Hn.
    destruct (c =? 34)%N.
    { destruct (JSON.scanstring s0) as [[t rest]|]; discriminate. }
    destruct (c =? 123)%N.
    { destruct (JSON.strip [125%N] (JSON.skip_ws s0)); [discriminate|].
      apply IHm. lia. }
    destruct (c =? 91)%N.
    { destruct (JSON.strip [93%N] (JSON.skip_ws s0)); [discriminate|].
      apply IHe. lia. }
    repeat match goal with
           | |- (if ?b then _ else _) <> _ => destruct b; [apply Hnum|]
           end.
    apply scan_number_not_exhausted. }
  split; [exact Ho|]. split.
  - intros s acc Hn. cbn [JSON.members].
    destruct (JSON.strip [34%N] s) as [r0|] eqn:E0; [|discriminate].
    apply strip_length in E0.
    destruct (JSON.scanstring r0) as [[key r1]|] eqn:E1; [|discriminate].
    apply scanstring_length in E1. pose proof (skip_ws_length r1).
    destruct (JSON.strip [58%N] (JSON.skip_ws r1)) as [r2|] eqn:E2; [|discriminate].
    apply strip_length in E2. pose proof (skip_ws_length r2).
    cbn [length] in *.
    destruct (JSON.scan_once n (JSON.skip_ws r2)) as [v0 r3| | |] eqn:E3.
    + apply (proj1 (scan_consumes n)) in E3. pose proof (skip_ws_length r3).
      cbv zeta.
      destruct (JSON.strip [125%N] (JSON.skip_ws r3)); [discriminate|].
      destruct (JSON.strip [44%N] (JSON.skip_ws r3)) as [r4|] eqn:E5; [|discriminate].
      apply strip_length in E5. pose proof (skip_ws_length r4). cbn [length] in *.
      apply IHm. lia.
    + discriminate.
    + discriminate.
    + exfalso. revert E3. apply IHo. lia.
  - intros s acc Hn. cbn [JSON.elements].
    destruct (JSON.scan_once n s) as [v0 r1| | |] eqn:E1.
    + apply (proj1 (scan_consumes n)) in E1. pose proof (skip_ws_length r1).
      destruct (JSON.strip [93%N] (JSON.skip_ws r1)); [discriminate|].
      destruct (JSON.strip [44%N] (JSON.skip_ws r1)) as [r2|] eqn:E3; [|discriminate].
      apply strip_length in E3. pose proof (skip_ws_length r2). cbn [length] in *.
      apply IHe. lia.
    + discriminate.
    + discriminate.
    + exfalso. revert E1. apply IHo. lia.
Qed.

(** The reference loader returns a document, or raises [JSONDecodeError],
    or [ValueError] on an integer literal beyond the digit limit; its
    counter never runs out. *)
Lemma json_loads_outcome (s : str) :
  (exists v, json_loads s = Return v)
  \/ json_loads s = Raise JSONDecodeError
  \/ json_loads s = Raise ValueError.
Proof.
  unfold json_loads. destruct (startswith s [65279%N]); [now right; left|].
  destruct (JSON.scan_once (JSON.fuel_for s) (JSON.skip_ws s))
    as [v rest| | |] eqn:E.
  - destruct (JSON.skip_ws rest); [left; now exists v|now right; left].
  - now right; left.
  - now right; right.
  - exfalso. revert E. apply (proj1 (scan_fuel (JSON.fuel_for s))).
    unfold JSON.fuel_for. pose proof (skip_ws_length s). lia.
Qed.

(* ================================================================== *)
(** ** What the reference loader returns converts to text *)

(** The bound is what its name says. *)
Lemma digit_bound_eq : digit_bound = (10 ^ int_max_str_digits)%Z.
Proof. vm_compute. reflexivity. Qed.

Lemma take_digits_digits (s : str) :
  forallb JSON.is_digit (fst (JSON.take_digits s)) = true.
Proof.
  induction s as [|c s IH]; [reflexivity|]. cbn [JSON.take_digits].
  destruct (JSON.is_digit c) eqn:E; [|reflexivity].
  destruct (JSON.take_digits s) as [ds r]. cbn [fst forallb] in *.
  now rewrite E, IH.
Qed.

Lemma int_part_digits (c : N) (r : str) :
  JSON.is_digit c = true ->
  forallb JSON.is_digit (fst (JSON.int_part c r)) = true.
Proof.
  intros Hc. unfold JSON.int_part. destruct (c =? 48)%N.
  - cbn [fst forallb]. now rewrite Hc.
  - pose proof (take_digits_digits r) as H.
    destruct (JSON.take_digits r) as [ds r']. cbn [fst forallb] in *.
    now rewrite Hc, H.
Qed.

(** A literal of [n] digits denotes a number below [10 ^ n]. *)
Lemma decimal_bound (ds : str) :
  forallb JSON.is_digit ds = true ->
  (JSON.decimal ds < 10 ^ N.of_nat (length ds))%N.
Proof.
  unfold JSON.decimal.
  assert (H : forall acc,
             forallb JSON.is_digit ds = true ->
             (fold_left (fun a c => a * 10 + (c - 48)) ds acc + 1
              <= (acc + 1) * 10 ^ N.of_nat (length ds))%N).
  { induction ds as [|c ds IH]; intros acc Hd.
    - simpl. lia.
    - cbn [forallb] in Hd. apply andb_prop in Hd as [Hc Hd].
      cbn [fold_left length]. specialize (IH (acc * 10 + (c - 48))%N Hd).
      rewrite Nat2N.inj_succ, N.pow_succ_r'.
      unfold JSON.is_digit in Hc. apply andb_prop in Hc as [H1 H2].
      apply N.leb_le in H1, H2.
      assert (acc * 10 + (c - 48) + 1 <= (acc + 1) * 10)%N by lia.
      nia. }
  intros Hd. specialize (H 0%N Hd). lia.
Qed.

Lemma number_renders (neg : bool) (c : N) (r : str) (frac : str)
    (expo : option Z) :
  JSON.is_digit c = true ->
  JSON.int_refused (fst (JSON.int_part c r)) frac expo = false ->
  renders (JSON.number_value neg (fst (JSON.int_part c r)) frac expo) = true.
Proof.
  intros Hc Hr. pose proof (int_part_digits c r Hc) as Hd.
  destruct (JSON.int_part c r) as [ds r1]. cbn [fst] in *.
  unfold JSON.number_value, JSON.int_refused in *.
  destruct frac; [|reflexivity]. destruct expo; [reflexivity|].
  apply Z.ltb_ge in Hr. apply decimal_bound in Hd.
  cbn [renders]. unfold int_converts. apply Z.ltb_lt. rewrite digit_bound_eq.
  assert (Hz : (Z.of_N (JSON.decimal ds) < 10 ^ Z.of_nat (length ds))%Z).
  { apply N2Z.inj_lt in Hd. rewrite N2Z.inj_pow in Hd.
    now rewrite nat_N_Z in Hd. }
  assert (Hp : (10 ^ Z.of_nat (length ds) <= 10 ^ int_max_str_digits)%Z).
  { apply Z.pow_le_mono_r; lia. }
  destruct neg; lia.
Qed.

Lemma scan_number_renders (s : str) (v : value) (r : str) :
  JSON.scan_number s = JSON.Scanned v r -> renders v = true.
Proof.
  unfold JSON.scan_number.
  destruct (match JSON.strip [45%N] s with
            | Some r0 => (true, r0)
            | None => (false, s)
            end) as [neg [|c r0]]; [discriminate|].
  destruct (JSON.is_digit c) eqn:Hc; [|discriminate].
  pose proof (number_renders neg c r0) as H.
  destruct (JSON.int_part c r0) as [ds r1]. cbn [fst] in H.
  destruct (JSON.frac_part r1) as [frac r2].
  destruct (JSON.exp_part r2) as [expo r3].
  destruct (JSON.int_refused ds frac expo) eqn:Hr; [discriminate|].
  intros [= <- _]. now apply H.
Qed.

Lemma keyword_renders (w : string) (v : value) (s : str)
    (other : JSON.scan value) (v' : value) (r : str) :
  renders v = true ->
  (other = JSON.Scanned v' r -> renders v' = true) ->
  JSON.keyword w v s other = JSON.Scanned v' r -> renders v' = true.
Proof.
  intros Hv Ho. unfold JSON.keyword.
  destruct (JSON.strip (lit w) s); [|exact Ho].
  now intros [= <- _].
Qed.

Lemma dict_set_renders (acc : dict) (k : str) (v : value) :
  forallb (fun kv : str * value => renders (snd kv)) acc = true ->
  renders v = true ->
  forallb (fun kv : str * value => renders (snd kv)) (dict_set acc k v) = true.
Proof.
  intros Ha Hv. induction acc as [|[k' v'] acc IH]; cbn [dict_set forallb snd].
  - now rewrite Hv.
  - cbn [forallb snd] in Ha. apply andb_prop in Ha as [H1 H2].
    destruct (str_eqb k' k); cbn [forallb snd].
    + now rewrite Hv, H2.
    + now rewrite H1, IH.
Qed.

(** Whatever the scanners return converts to text. *)
Lemma scan_renders (n : nat) :
  (forall s v r, JSON.scan_once n s = JSON.Scanned v r -> renders v = true)
  /\ (forall s acc v r,
        forallb (fun kv : str * value => renders (snd kv)) acc = true ->
        JSON.members n s acc = JSON.Scanned v r -> renders v = true)
  /\ (forall s acc v r,
        forallb renders acc = true ->
        JSON.elements n s acc = JSON.Scanned v r -> renders v = true).
Proof.
  induction n as [|n (IHo & IHm & IHe)]; [repeat split; discriminate|].
  split; [|split].
  - intros [|c s0] v r; [discriminate|]. cbn [JSON.scan_once].
    assert (Hnum : forall w v0, renders v0 = true ->
               JSON.keyword w v0 (c :: s0) (JSON.scan_number (c :: s0))
               = JSON.Scanned v r -> renders v = true).
    { intros w v0 Hv0. apply keyword_renders; [exact Hv0|].
      apply scan_number_renders. }
    destruct (c =? 34)%N.
    { destruct (JSON.scanstring s0) as [[t rest]|]; [|discriminate].
      now intros [= <- _]. }
    destruct (c =? 123)%N.
    { destruct (JSON.strip [125%N] (JSON.skip_ws s0)).
      - now intros [= <- _].
      - now apply IHm. }
    destruct (c =? 91)%N.
    { destruct (JSON.strip [93%N] (JSON.skip_ws s0)).
      - now intros [= <- _].
      - now apply IHe. }
    repeat match goal with
           | |- (if ?b then _ else _) = _ -> _ =>
               destruct b; [now apply Hnum|]
           end.
    apply scan_number_renders.
  - intros s acc v r Ha. cbn [JSON.members].
    destruct (JSON.strip [34%N] s) as [r0|]; [|discriminate].
    destruct (JSON.scanstring r0) as [[key r1]|]; [|discriminate].
    destruct (JSON.strip [58%N] (JSON.skip_ws r1)) as [r2|]; [|discriminate].
    destruct (JSON.scan_once n (JSON.skip_ws r2)) as [v0 r3| | |] eqn:E3;
      try discriminate.
    apply IHo in E3. pose proof (dict_set_renders acc key v0 Ha E3) as Hs.
    destruct (JSON.strip [125%N] (JSON.skip_ws r3)).
    { intros [= <- _]. exact Hs. }
    destruct (JSON.strip [44%N] (JSON.skip_ws r3)); [|discriminate].
    now apply IHm.
  - intros s acc v r Ha. cbn [JSON.elements].
    destruct (JSON.scan_once n s) as [v0 r1| | |] eqn:E1; try discriminate.
    apply IHo in E1.
    assert (Hs : forallb renders (acc ++ [v0]) = true).
    { rewrite forallb_app, Ha. cbn [forallb]. now rewrite E1. }
    destruct (JSON.strip [93%N] (JSON.skip_ws r1)).
    { intros [= <- _]. exact Hs. }
    destruct (JSON.strip [44%N] (JSON.skip_ws r1)); [|discriminate].
    now apply IHe.
Qed.

(** What the reference loader returns holds no integer beyond the digit
    limit: it converts to text, and so does everything in it. *)
Lemma json_loads_renders (s : str) (v : value) :
  json_loads s = Return v -> renders v = true.
Proof.
  unfold json_loads. destruct (startswith s [65279%N]); [discriminate|].
  destruct (JSON.scan_once (JSON.fuel_for s) (JSON.skip_ws s))
    as [v0 rest| | |] eqn:E; try discriminate.
  destruct (JSON.skip_ws rest); [|discriminate].
  intros [= <-]. revert E. apply (proj1 (scan_renders (JSON.fuel_for s))).
Qed.

Lemma renders_lookup (d : dict) (k : str) (v : value) :
  renders (VDict d) = true -> dict_lookup d k = Some v -> renders v = true.
Proof.
  cbn [renders]. induction d as [|[k' v'] d IH]; [discriminate|].
  cbn [forallb snd dict_lookup]. intros H. apply andb_prop in H as [H1 H2].
  destruct (str_eqb k' k); [now intros [= <-]|now apply IH].
Qed.

(** So the action the endpoint shows in its own records converts. *)
Lemma loaded_action_renders (s : str) (d : dict) :
  json_loads s = Return (VDict d) -> renders (action_of d) = true.
Proof.
  intros H. apply json_loads_renders in H. unfold action_of.
  destruct (dict_lookup d (lit "action")) as [v|] eqn:E; [|reflexivity].
  exact (renders_lookup d (lit "action") v H E).
Qed.

(* ================================================================== *)
(** ** The claims about the endpoint *)

Ltac evaluate := vm_compute; reflexivity.

Lemma lookup_route_case_sensitive :
  lookup_route route_table (lit "Opened") = None
  /\ lookup_route route_table (lit "opened") = Some Opened.
Proof. split; reflexivity. Qed.

(** C4. For a verified [pull_request] delivery whose body decodes to an
    object with a string under [action], the run of the endpoint is given
    by the route table.  When the action is one of the six names (compared
    code point for code point), the handler bound to it is applied to the
    decoded object: the records that handler writes follow the call in the
    trace, and its outcome decides the response.  Otherwise no handler is
    applied and the delivery is acknowledged.  In particular [merged] goes
    to the merged-handler and [closed] to the closed-handler, whatever else
    the object holds. *)
Theorem pull_request_dispatch_follows_route_table
    (secret : str) (loads : str -> outcome value)
    (handlers : handler -> value -> M record unit)
    (req : request) (text : str) (d : dict) (a : str) :
  verified secret req ->
  UTF8.decode (get_data req) = Some text ->
  loads text = Return (VDict d) ->
  event_type_of req = Some (lit "pull_request") ->
  dict_lookup d (lit "action") = Some (VStr a) ->
  webhook secret loads handlers req
  = match lookup_route route_table a with
    | Some h => dispatched text (VStr a) h (VDict d) (handlers h (VDict d))
    | None => undispatched text (VStr a)
    end
  /\ (a = lit "merged" ->
      webhook secret loads handlers req
      = dispatched text (VStr a) Merged (VDict d) (handlers Merged (VDict d)))
  /\ (a = lit "closed" ->
      webhook secret loads handlers req
      = dispatched text (VStr a) Closed (VDict d) (handlers Closed (VDict d))).
Proof.
  intros Hv Hd Hl He Ha.
  assert (H : webhook secret loads handlers req
              = match lookup_route route_table a with
                | Some h =>
                    dispatched text (VStr a) h (VDict d) (handlers h (VDict d))
                | None => undispatched text (VStr a)
                end).
  { rewrite (webhook_pull_request secret loads handlers req text d) by assumption.
    cbv zeta. unfold action_of. rewrite Ha.
    change (route (VStr a)) with (lookup_route route_table a).
    destruct (lookup_route route_table a) as [h|]; [|reflexivity].
    unfold dispatched. destruct (handlers h (VDict d)) as [t [[]|e]]; reflexivity. }
  split; [exact H|].
  split; intros ->; exact H.
Qed.

Lemma pull_request_dispatch_follows_route_table_witness :
  webhook_app default_secret closed_merged_delivery
  = (Parse (json_text closed_merged_text)
     :: Log (received_record (VStr (lit "closed")))
     :: Call Closed (VDict closed_merged_envelope)
     :: map Log (fst (handle_pull_request_closed (VDict closed_merged_envelope))),
     received)
  /\ length (fst (handle_pull_request_closed (VDict closed_merged_envelope))) = 4.
Proof.
  split; [|evaluate].
  etransitivity; [|evaluate].
  exact (proj2 (proj2 (pull_request_dispatch_follows_route_table
                         default_secret json_loads module_handlers
                         closed_merged_delivery (json_text closed_merged_text)
                         closed_merged_envelope (lit "closed")
                         ltac:(evaluate) ltac:(evaluate) ltac:(evaluate)
                         ltac:(evaluate) ltac:(evaluate)))
           eq_refl).
Defined.

(** C5. A correctly signed body that is not UTF-8, hence not JSON, is
    answered with 500 and not with 400: decoding raises
    [UnicodeDecodeError], which the [JSONDecodeError] clause does not
    catch. *)
Theorem undecodable_body_answers_500 :
  verified default_secret undecodable_delivery
  /\ webhook_app default_secret undecodable_delivery
     = ([Log (Rec ERROR "Error processing webhook: {}" [AExc UnicodeDecodeError])],
        Response (jsonify "error" "Internal server error") 500).
Proof. split; evaluate. Qed.

(** The effect of the verifier raising on the endpoint: a delivery whose
    signature header is not ASCII past the prefix is answered with 500, not
    with 401. *)
Lemma non_ascii_signature_answers_500 :
  webhook_app default_secret non_ascii_signature_delivery
  = ([Log (Rec ERROR "Error processing webhook: {}" [AExc TypeError])],
     Response (jsonify "error" "Internal server error") 500).
Proof. evaluate. Qed.

(** The part of C5 the code does honour: once the body is text, a loader
    that raises [JSONDecodeError] gives 400 and no handler call. *)
Lemma json_decode_error_answers_400
    (secret : str) (loads : str -> outcome value)
    (handlers : handler -> value -> M record unit)
    (req : request) (text : str) :
  verified secret req ->
  UTF8.decode (get_data req) = Some text ->
  loads text = Raise JSONDecodeError ->
  webhook secret loads handlers req
  = ([Parse text; Log (Rec ERROR "Invalid JSON payload" [])],
     Response (jsonify "error" "Invalid JSON") 400).
Proof.
  intros Hv Hd Hl.
  now rewrite (webhook_not_loaded secret loads handlers req text JSONDecodeError).
Qed.

(** C6 (amended). For a verified [pull_request] delivery whose body decodes
    to an object with a routed action, the response follows the handler:
    the usual acknowledgement when the handler returns; when it raises, the
    failure is logged and the response is the one of the [except] clause
    that catches the exception, 500 in general and 400 for a
    [JSONDecodeError]. *)
Theorem handler_outcome_decides_response
    (secret : str) (loads : str -> outcome value)
    (handlers : handler -> value -> M record unit)
    (req : request) (text : str) (d : dict) (h : handler) :
  verified secret req ->
  UTF8.decode (get_data req) = Some text ->
  loads text = Return (VDict d) ->
  event_type_of req = Some (lit "pull_request") ->
  route (action_of d) = Some h ->
  match snd (handlers h (VDict d)) with
  | Return _ => snd (webhook secret loads handlers req) = received
  | Raise e =>
      snd (webhook secret loads handlers req) = failure_response e
      /\ In (Log (failure_record e)) (fst (webhook secret loads handlers req))
  end.
Proof.
  intros Hv Hd Hl He Hr.
  rewrite (webhook_pull_request secret loads handlers req text d) by assumption.
  cbv zeta. rewrite Hr.
  destruct (handlers h (VDict d)) as [t [[]|e]]; cbn [fst snd].
  - reflexivity.
  - split; [reflexivity|].
    do 3 right. apply in_or_app. right. now left.
Qed.

Lemma handler_outcome_decides_response_witness :
  snd (webhook_app default_secret bare_opened_delivery)
  = failure_response (KeyError (lit "pull_request"))
  /\ In (Log (failure_record (KeyError (lit "pull_request"))))
       (fst (webhook_app default_secret bare_opened_delivery)).
Proof.
  apply (handler_outcome_decides_response default_secret json_loads
           module_handlers bare_opened_delivery
           (json_text "{'action':'opened'}") bare_opened_envelope Opened);
    evaluate.
Defined.

(** C6 as stated fails: this delivery verifies, its body is JSON, the
    opened-handler is called and raises [KeyError], and the response is 500
    instead of the acknowledgement. *)
Lemma failing_handler_answers_500 :
  verified default_secret bare_opened_delivery
  /\ json_loads (json_text "{'action':'opened'}") = Return (VDict bare_opened_envelope)
  /\ calls (fst (webhook_app default_secret bare_opened_delivery))
     = [(Opened, VDict bare_opened_envelope)]
  /\ handle_pull_request_opened (VDict bare_opened_envelope)
     = ([], Raise (KeyError (lit "pull_request")))
  /\ snd (webhook_app default_secret bare_opened_delivery)
     = Response (jsonify "error" "Internal server error") 500
  /\ snd (webhook_app default_secret opened_delivery)
     = Response (jsonify "message" "Webhook received successfully") 200.
Proof. repeat apply conj; evaluate. Qed.

(** C7 (amended). For a verified [ping] delivery whose body decodes and
    loads as JSON, whatever the document, the response is 200 with
    [Pong], and no handler is called. *)
Theorem ping_answers_pong
    (secret : str) (loads : str -> outcome value)
    (handlers : handler -> value -> M record unit)
    (req : request) (text : str) (data : value) :
  verified secret req ->
  UTF8.decode (get_data req) = Some text ->
  loads text = Return data ->
  event_type_of req = Some (lit "ping") ->
  webhook secret loads handlers req
  = ([Parse text; Log ping_record], Response (jsonify "message" "Pong") 200)
  /\ calls (fst (webhook secret loads handlers req)) = [].
Proof.
  intros Hv Hd Hl He.
  rewrite (webhook_other_event secret loads handlers req text data)
    by (try assumption; rewrite He; discriminate).
  rewrite He. split; reflexivity.
Qed.

Lemma ping_answers_pong_witness :
  webhook_app default_secret ping_delivery
  = ([Parse (json_text "{}"); Log ping_record],
     Response (jsonify "message" "Pong") 200)
  /\ calls (fst (webhook_app default_secret ping_delivery)) = [].
Proof.
  apply (ping_answers_pong default_secret json_loads module_handlers
           ping_delivery (json_text "{}") (VDict [])); evaluate.
Defined.

(** C7 as stated fails: a verified [ping] delivery whose body is not JSON
    is answered with 400. *)
Lemma ping_with_invalid_body_answers_400 :
  verified default_secret ping_not_json_delivery
  /\ event_type_of ping_not_json_delivery = Some (lit "ping")
  /\ webhook_app default_secret ping_not_json_delivery
     = ([Parse (lit "hello"); Log (Rec ERROR "Invalid JSON payload" [])],
        Response (jsonify "error" "Invalid JSON") 400).
Proof. repeat apply conj; evaluate. Qed.

(** C8. A verified delivery whose body loads as JSON is acknowledged with
    200 and the generic message, without any handler call, when it is a
    [pull_request] whose object has no routed action, and when its event
    type is neither [pull_request] nor [ping]. *)
Theorem unrouted_delivery_is_acknowledged
    (secret : str) (loads : str -> outcome value)
    (handlers : handler -> value -> M record unit)
    (req : request) (text : str) (data : value) :
  verified secret req ->
  UTF8.decode (get_data req) = Some text ->
  loads text = Return data ->
  (event_type_of req = Some (lit "pull_request")
   /\ exists d, data = VDict d /\ route (action_of d) = None)
  \/ (event_type_of req <> Some (lit "pull_request")
      /\ event_type_of req <> Some (lit "ping")) ->
  snd (webhook secret loads handlers req)
  = Response (jsonify "message" "Webhook received successfully") 200
  /\ calls (fst (webhook secret loads handlers req)) = [].
Proof.
  intros Hv Hd Hl [[He (d & -> & Hr)]|[Hn Hp]].
  - rewrite (webhook_pull_request secret loads handlers req text d) by assumption.
    cbv zeta. rewrite Hr. split; reflexivity.
  - rewrite (webhook_other_event secret loads handlers req text data)
      by assumption.
    rewrite eq_str_false; [split; reflexivity|].
    destruct (event_type_of req); simpl; congruence.
Qed.

Lemma unrouted_delivery_is_acknowledged_witness :
  snd (webhook_app default_secret labeled_delivery)
  = Response (jsonify "message" "Webhook received successfully") 200
  /\ calls (fst (webhook_app default_secret labeled_delivery)) = [].
Proof.
  apply (unrouted_delivery_is_acknowledged default_secret json_loads
           module_handlers labeled_delivery
           (json_text "{'action':'labeled'}") (VDict labeled_envelope));
    try evaluate.
  left. split; [evaluate|]. exists labeled_envelope. split; evaluate.
Defined.

(** C9. Every request leads to at most one handler call; and a verified
    [pull_request] delivery whose object has the action [opened] leads to
    exactly one, of the opened-handler: the handler is applied once to the
    decoded object as the loader returned it, the records it writes follow
    the call in the trace, and its outcome decides the response. *)
Theorem at_most_one_handler_call
    (secret : str) (loads : str -> outcome value)
    (handlers : handler -> value -> M record unit) (req : request) :
  length (calls (fst (webhook secret loads handlers req))) <= 1
  /\ forall (text : str) (d : dict),
       verified secret req ->
       UTF8.decode (get_data req) = Some text ->
       loads text = Return (VDict d) ->
       event_type_of req = Some (lit "pull_request") ->
       dict_lookup d (lit "action") = Some (VStr (lit "opened")) ->
       webhook secret loads handlers req
       = dispatched text (VStr (lit "opened")) Opened (VDict d)
           (handlers Opened (VDict d))
       /\ calls (fst (webhook secret loads handlers req)) = [(Opened, VDict d)].
Proof.
  split; [apply webhook_calls_at_most_one|].
  intros text d Hv Hd Hl He Ha.
  rewrite (webhook_pull_request secret loads handlers req text d) by assumption.
  cbv zeta. unfold action_of. rewrite Ha.
  change (route (VStr (lit "opened"))) with (Some Opened). cbv beta iota.
  unfold dispatched.
  destruct (handlers Opened (VDict d)) as [t [[]|e]]; cbn [fst calls];
    rewrite ?calls_app, calls_logs; split; reflexivity.
Qed.

Lemma at_most_one_handler_call_witness :
  length (calls (fst (webhook_app default_secret opened_delivery))) <= 1
  /\ webhook_app default_secret opened_delivery
     = (Parse (json_text opened_text)
        :: Log (received_record (VStr (lit "opened")))
        :: Call Opened (VDict opened_envelope)
        :: map Log (fst (handle_pull_request_opened (VDict opened_envelope))),
        received)
  /\ calls (fst (webhook_app default_secret opened_delivery))
     = [(Opened, VDict opened_envelope)].
Proof.
  destruct (at_most_one_handler_call default_secret json_loads module_handlers
              opened_delivery) as [Hle Hopened].
  split; [exact Hle|].
  destruct (Hopened (json_text opened_text) opened_envelope
              ltac:(evaluate) ltac:(evaluate) ltac:(evaluate) ltac:(evaluate)
              ltac:(evaluate)) as [Hrun Hcalls].
  split; [|exact Hcalls].
  etransitivity; [exact Hrun|evaluate].
Defined.

(** C10. A verified delivery whose body loads as JSON and which has no
    event-type header is acknowledged with 200 and the generic message:
    the absent header is logged as an unhandled event type, and no handler
    is called. *)
Theorem absent_event_type_is_acknowledged
    (secret : str) (loads : str -> outcome value)
    (handlers : handler -> value -> M record unit)
    (req : request) (text : str) (data : value) :
  verified secret req ->
  UTF8.decode (get_data req) = Some text ->
  loads text = Return data ->
  event_type_of req = None ->
  webhook secret loads handlers req
  = ([Parse text; Log (unhandled_event_record VNone)],
     Response (jsonify "message" "Webhook received successfully") 200)
  /\ calls (fst (webhook secret loads handlers req)) = [].
Proof.
  intros Hv Hd Hl He.
  rewrite (webhook_other_event secret loads handlers req text data)
    by (try assumption; rewrite He; discriminate).
  rewrite He. split; reflexivity.
Qed.

Lemma absent_event_type_is_acknowledged_witness :
  webhook_app default_secret untyped_delivery
  = ([Parse (json_text "{}"); Log (unhandled_event_record VNone)],
     Response (jsonify "message" "Webhook received successfully") 200)
  /\ calls (fst (webhook_app default_secret untyped_delivery)) = [].
Proof.
  apply (absent_event_type_is_acknowledged default_secret json_loads
           module_handlers untyped_delivery (json_text "{}") (VDict []));
    evaluate.
Defined.

(* ================================================================== *)
(** ** The handlers *)

Lemma result_bind {W A B} (m : M W A) (k : A -> M W B) :
  result (bind m k)
  = match result m with
    | Return a => result (k a)
    | Raise e => Raise e
    end.
Proof.
  destruct m as [t [a|e]]; unfold result, bind; cbn [snd]; [|reflexivity].
  destruct (k a); reflexivity.
Qed.


Lemma result_getitem {W} (v : value) (k : string) :
  result (@getitem W v k)
  = match field v k with
    | Some x => Return x
    | None =>
        Raise (match v with
               | VDict _ => KeyError (lit k)
               | _ => TypeError
               end)
    end.
Proof.
  destruct v; try reflexivity.
  unfold getitem, field. destruct (dict_lookup d (lit k)); reflexivity.
Qed.


Lemma getitem_absent {W} (v : value) (k : string) :
  field v k = None ->
  @getitem W v k = raise (match v with
                          | VDict _ => KeyError (lit k)
                          | _ => TypeError
                          end).
Proof.
  destruct v; try reflexivity. unfold field, getitem. now intros ->.
Qed.

Lemma result_get {W} (v : value) (k : string) :
  result (@get W v k)
  = match v with
    | VDict d =>
        Return (match dict_lookup d (lit k) with
                | Some x => x
                | None => VNone
                end)
    | _ => Raise AttributeError
    end.
Proof. destruct v; reflexivity. Qed.

Lemma result_info (msg : string) (vs : list value) : result (info msg vs) = Return tt.
Proof. reflexivity. Qed.

Lemma result_when {W} (c : bool) (m : M W unit) :
  result (when c m) = if c then result m else Return tt.
Proof. destruct c; reflexivity. Qed.

Lemma field_dict (v : value) (k : string) (x : value) :
  field v k = Some x -> exists d, v = VDict d.
Proof. destruct v; try discriminate. intros _. now exists d. Qed.

Arguments field : simpl never.

(** One step of a handler: the next subscript succeeds or raises. *)
Ltac read_field :=
  rewrite result_bind, result_getitem;
  match goal with
  | |- context [match field ?v ?k with _ => _ end] =>
      let E := fresh "E" in
      destruct (field v k) eqn:E; cbv beta iota
  end.

Ltac log_line := rewrite result_bind, result_info; cbv beta iota.

Ltac failed :=
  let H := fresh in
  intros H; injection H as <-;
  try match goal with
      | |- context [match ?v with _ => _ end] => destruct v
      end;
  eauto.

Lemma result_formatted {W} (m : M W value) :
  result (formatted m)
  = match result m with
    | Return v => if renders v then Return v else Raise ValueError
    | Raise e => Raise e
    end.
Proof.
  unfold formatted. rewrite result_bind.
  destruct (result m) as [v|e]; [destruct (renders v)|]; reflexivity.
Qed.

(** One step of a handler that shows the field it reads: the subscript
    succeeds and the value converts, or converts not, or the subscript
    raises. *)
Ltac show_field :=
  rewrite result_bind, result_formatted, result_getitem;
  match goal with
  | |- context [match field ?v ?k with _ => _ end] =>
      let E := fresh "E" in
      let x := fresh "x" in
      destruct (field v k) as [x|] eqn:E; cbv beta iota;
      [let R := fresh "R" in destruct (renders x) eqn:R; cbv beta iota|]
  end.

Ltac know_fields :=
  repeat match goal with
         | H : field ?a ?b = _ |- context [field ?a ?b] => rewrite H; cbv beta iota
         end.

Ltac guess_fields :=
  repeat match goal with
         | |- context [match field ?a ?b with _ => _ end] => destruct (field a b)
         end.

Ltac know_truth :=
  cbn [truthy];
  repeat match goal with
         | H : truthy ?x = _ |- context [truthy ?x] => rewrite H; cbv beta iota
         end.

Ltac guess_truth :=
  repeat match goal with
         | |- context [if truthy ?x then _ else _] => destruct (truthy x)
         end.

Ltac know_renders :=
  repeat match goal with
         | H : renders ?x = _ |- context [renders ?x] => rewrite H; cbv beta iota
         end.

Ltac guess_renders :=
  repeat match goal with
         | |- context [renders ?x] => destruct (renders x)
         end.

(** Evaluating the vocabulary on what is known of the payload. *)
Ltac lay_out :=
  unfold usable, scalars, complete, interpolated, optional, optional_ok,
    values_at, required, has;
  cbn [forallb path flat_map app].

Ltac work_out :=
  lay_out;
  repeat (know_fields; know_truth; cbn [forallb path flat_map app]);
  guess_fields; guess_truth;
  repeat (know_fields; know_truth; cbn [forallb path flat_map app]);
  guess_fields; cbn [forallb path flat_map app andb];
  know_renders; cbn [andb]; guess_renders; cbn [andb].

Ltac settled :=
  work_out; split; solve [reflexivity | discriminate | intros _; reflexivity].

(** A handler returns exactly when everything it reads is there and
    everything it shows converts. *)
Lemma handler_returns_iff (h : handler) (payload : value) :
  result (module_handlers h payload) = Return tt <-> usable h payload = true.
Proof.
  destruct h; unfold module_handlers.
  - unfold handle_pull_request_opened.
    do 3 (read_field; [|settled]).
    do 2 (show_field; [|settled|settled]). log_line.
    show_field; [|settled|settled]. log_line.
    show_field; [|settled|settled]. log_line.
    show_field; [|settled|settled]. rewrite result_info. settled.
  - unfold handle_pull_request_closed.
    do 3 (read_field; [|settled]).
    do 2 (show_field; [|settled|settled]). log_line.
    show_field; [|settled|settled]. log_line.
    show_field; [|settled|settled]. log_line.
    show_field; [|settled|settled]. rewrite result_info. settled.
  - unfold handle_pull_request_merged.
    do 3 (read_field; [|settled]).
    do 2 (show_field; [|settled|settled]). log_line.
    show_field; [|settled|settled]. log_line.
    show_field; [|settled|settled]. log_line.
    show_field; [|settled|settled]. rewrite result_info. settled.
  - unfold handle_pull_request_review_requested.
    do 2 (read_field; [|settled]).
    match goal with
    | H : field ?v "pull_request" = Some _ |- _ =>
        destruct (field_dict _ _ _ H) as [d ->]
    end.
    do 2 (rewrite result_bind, result_get; cbv beta iota).
    assert (Hr : field (VDict d) "requested_reviewer"
                 = dict_lookup d (lit "requested_reviewer")) by reflexivity.
    assert (Ht : field (VDict d) "requested_team"
                 = dict_lookup d (lit "requested_team")) by reflexivity.
    destruct (dict_lookup d (lit "requested_reviewer")) as [rr|];
      destruct (dict_lookup d (lit "requested_team")) as [rt|];
      do 2 (show_field; [|settled|settled]); log_line;
      (show_field; [|settled|settled]); log_line;
      rewrite result_bind, result_when; cbn [truthy];
      try match goal with
          | |- context [if truthy rr then _ else _] => destruct (truthy rr) eqn:Tr
          end;
      try (show_field; [|settled|settled]; rewrite result_info); cbv beta iota;
      rewrite result_when; cbn [truthy];
      try match goal with
          | |- context [if truthy rt then _ else _] => destruct (truthy rt) eqn:Tt
          end;
      try (show_field; [|settled|settled]; rewrite result_info); settled.
  - unfold handle_pull_request_review_submitted.
    do 4 (read_field; [|settled]).
    do 2 (show_field; [|settled|settled]). log_line.
    show_field; [|settled|settled]. log_line.
    show_field; [|settled|settled]. log_line.
    show_field; [|settled|settled]. log_line.
    match goal with
    | H : field ?v "state" = Some _ |- _ => destruct (field_dict _ _ _ H) as [d ->]
    end.
    rewrite result_bind, result_get; cbv beta iota.
    rewrite result_when.
    assert (Hb : field (VDict d) "body" = dict_lookup d (lit "body"))
      by reflexivity.
    destruct (dict_lookup d (lit "body")) as [b|]; cbn [truthy]; [|settled].
    destruct (truthy b) eqn:Tb; [|settled].
    show_field; [| |discriminate]; injection Hb as ->;
      rewrite ?result_info; settled.
  - unfold handle_pull_request_synchronize.
    do 3 (read_field; [|settled]).
    do 2 (show_field; [|settled|settled]). log_line.
    show_field; [|settled|settled]. log_line.
    show_field; [|settled|settled]. log_line.
    read_field; [|settled].
    show_field; [|settled|settled]. rewrite result_info. settled.
Qed.

Ltac lacking :=
  let H := fresh in
  intros H; injection H as <-; left;
  split;
  [ try match goal with
        | |- context [match ?v with _ => _ end] => destruct v
        end; eauto
  | work_out; reflexivity ].

Ltac unshown :=
  let H := fresh in
  intros H; injection H as <-; right;
  split; [reflexivity | work_out; reflexivity].

(** Why a handler fails: a [KeyError] or a [TypeError] when something it
    reads is not there, a [ValueError] when something it shows does not
    convert; nothing else. *)
Lemma handler_failure_cause (h : handler) (payload : value) (e : exn) :
  result (module_handlers h payload) = Raise e ->
  ((e = TypeError \/ exists k, e = KeyError k) /\ complete h payload = false)
  \/ (e = ValueError
      /\ forallb renders (values_at payload (interpolated h payload)) = false).
Proof.
  destruct h; unfold module_handlers.
  - unfold handle_pull_request_opened.
    do 3 (read_field; [|lacking]).
    do 2 (show_field; [|unshown|lacking]). log_line.
    show_field; [|unshown|lacking]. log_line.
    show_field; [|unshown|lacking]. log_line.
    show_field; [|unshown|lacking]. rewrite result_info. discriminate.
  - unfold handle_pull_request_closed.
    do 3 (read_field; [|lacking]).
    do 2 (show_field; [|unshown|lacking]). log_line.
    show_field; [|unshown|lacking]. log_line.
    show_field; [|unshown|lacking]. log_line.
    show_field; [|unshown|lacking]. rewrite result_info. discriminate.
  - unfold handle_pull_request_merged.
    do 3 (read_field; [|lacking]).
    do 2 (show_field; [|unshown|lacking]). log_line.
    show_field; [|unshown|lacking]. log_line.
    show_field; [|unshown|lacking]. log_line.
    show_field; [|unshown|lacking]. rewrite result_info. discriminate.
  - unfold handle_pull_request_review_requested.
    do 2 (read_field; [|lacking]).
    match goal with
    | H : field ?v "pull_request" = Some _ |- _ =>
        destruct (field_dict _ _ _ H) as [d ->]
    end.
    do 2 (rewrite result_bind, result_get; cbv beta iota).
    assert (Hr : field (VDict d) "requested_reviewer"
                 = dict_lookup d (lit "requested_reviewer")) by reflexivity.
    assert (Ht : field (VDict d) "requested_team"
                 = dict_lookup d (lit "requested_team")) by reflexivity.
    destruct (dict_lookup d (lit "requested_reviewer")) as [rr|];
      destruct (dict_lookup d (lit "requested_team")) as [rt|];
      do 2 (show_field; [|unshown|lacking]); log_line;
      (show_field; [|unshown|lacking]); log_line;
      rewrite result_bind, result_when; cbn [truthy];
      try match goal with
          | |- context [if truthy rr then _ else _] => destruct (truthy rr) eqn:Tr
          end;
      try (show_field; [|unshown|lacking]; rewrite result_info); cbv beta iota;
      rewrite result_when; cbn [truthy];
      try match goal with
          | |- context [if truthy rt then _ else _] => destruct (truthy rt) eqn:Tt
          end;
      try (show_field; [|unshown|lacking]; rewrite result_info); discriminate.
  - unfold handle_pull_request_review_submitted.
    do 4 (read_field; [|lacking]).
    do 2 (show_field; [|unshown|lacking]). log_line.
    show_field; [|unshown|lacking]. log_line.
    show_field; [|unshown|lacking]. log_line.
    show_field; [|unshown|lacking]. log_line.
    match goal with
    | H : field ?v "state" = Some _ |- _ => destruct (field_dict _ _ _ H) as [d ->]
    end.
    rewrite result_bind, result_get; cbv beta iota.
    rewrite result_when.
    assert (Hb : field (VDict d) "body" = dict_lookup d (lit "body"))
      by reflexivity.
    destruct (dict_lookup d (lit "body")) as [b|]; cbn [truthy]; [|discriminate].
    destruct (truthy b) eqn:Tb; [|discriminate].
    show_field; [| |discriminate]; injection Hb as ->;
      rewrite ?result_info; [discriminate|unshown].
  - unfold handle_pull_request_synchronize.
    do 3 (read_field; [|lacking]).
    do 2 (show_field; [|unshown|lacking]). log_line.
    show_field; [|unshown|lacking]. log_line.
    show_field; [|unshown|lacking]. log_line.
    read_field; [|lacking].
    show_field; [|unshown|lacking]. rewrite result_info. discriminate.
Qed.

Lemma handlers_raise_kinds (h : handler) (payload : value) (e : exn) :
  result (module_handlers h payload) = Raise e ->
  e = TypeError \/ (exists k, e = KeyError k) \/ e = ValueError.
Proof.
  intros H. apply handler_failure_cause in H as [[[->|[k ->]] _]|[-> _]]; eauto.
Qed.

(* ================================================================== *)
(** ** Every run of the endpoint *)

(** The endpoint always takes one of the ten runs. *)
Lemma webhook_run
    (secret : str) (loads : str -> outcome value)
    (handlers : handler -> value -> M record unit) (req : request) :
  run_of secret loads handlers req (webhook secret loads handlers req).
Proof.
  destruct (verify_webhook_signature (get_data req) (signature_of req) secret)
    as [t [[|]|e]] eqn:Hv.
  - assert (Hok : verified secret req) by (unfold verified; now rewrite Hv).
    destruct (UTF8.decode (get_data req)) as [text|] eqn:Hd.
    2:{ rewrite webhook_undecodable by assumption. now constructor. }
    destruct (loads text) as [data|e] eqn:Hl.
    2:{ rewrite (webhook_not_loaded secret loads handlers req text e) by assumption.
        now constructor. }
    destruct (eq_str (of_optional (event_type_of req)) "pull_request") eqn:He.
    + apply eq_str_spec in He.
      assert (He' : event_type_of req = Some (lit "pull_request")).
      { destruct (event_type_of req); simpl in He; congruence. }
      destruct data as [| | | | |l|d];
        try (rewrite (webhook_pull_request_not_object secret loads handlers
                        req text _ Hok Hd Hl He') by discriminate;
             eapply run_not_object; eauto; discriminate).
      rewrite (webhook_pull_request secret loads handlers req text d)
        by assumption.
      cbv zeta. destruct (route (action_of d)) as [h|] eqn:Hr.
      * destruct (handlers h (VDict d)) as [tr [[]|e]] eqn:Hh.
        -- now apply run_handled.
        -- now apply run_handler_raised.
      * now apply run_unrouted.
    + assert (Hn : event_type_of req <> Some (lit "pull_request")).
      { intros E. rewrite E in He. discriminate. }
      rewrite (webhook_other_event secret loads handlers req text data)
        by assumption.
      destruct (eq_str (of_optional (event_type_of req)) "ping") eqn:Hp.
      * apply eq_str_spec in Hp. eapply run_ping; eauto.
        destruct (event_type_of req); simpl in Hp; congruence.
      * eapply run_other; eauto.
        intros E. rewrite E in Hp. discriminate.
  - rewrite (webhook_return secret loads handlers req _ _
               (webhook_try_rejected secret loads handlers req t Hv)).
    now constructor.
  - rewrite (webhook_raise secret loads handlers req _ e
               (webhook_try_verify_raised secret loads handlers req t e Hv)).
    now constructor.
Qed.

Lemma verify_raise_silent (payload : bytes) (signature : option str)
    (secret : str) (e : exn) :
  result (verify_webhook_signature payload signature secret) = Raise e ->
  verify_webhook_signature payload signature secret = ([], Raise e)
  /\ is_JSONDecodeError e = false.
Proof.
  intros H. apply verify_raises in H as (s & -> & Hs & Hk & Hp & H).
  rewrite (verify_past_guards payload s secret Hs Hk Hp).
  destruct H as [[-> ->]|(Hn & Ha & ->)]; [now split|].
  destruct (UTF8.encode secret); [|congruence]. rewrite Ha. now split.
Qed.

(** X5. Whatever the request, the loader and the handlers do, the endpoint
    answers with one of five fixed responses: 401 invalid signature, 400
    invalid JSON, 500 internal server error, 200 pong, or the 200
    acknowledgement. *)
Theorem webhook_response_range
    (secret : str) (loads : str -> outcome value)
    (handlers : handler -> value -> M record unit) (req : request) :
  In (snd (webhook secret loads handlers req))
    [Response (jsonify "error" "Invalid signature") 401;
     Response (jsonify "error" "Invalid JSON") 400;
     Response (jsonify "error" "Internal server error") 500;
     Response (jsonify "message" "Pong") 200;
     Response (jsonify "message" "Webhook received successfully") 200].
Proof.
  destruct (webhook_run secret loads handlers req); cbn [snd];
    unfold failure_response;
    try match goal with
        | |- context [is_JSONDecodeError ?e] => destruct (is_JSONDecodeError e)
        end;
    cbn [is_JSONDecodeError]; simpl; tauto.
Qed.

(** X6. The endpoint answers 401 exactly when the verifier returned
    [False]; in particular never when the verifier raised. *)
Theorem unauthorized_iff_verifier_false
    (secret : str) (loads : str -> outcome value)
    (handlers : handler -> value -> M record unit) (req : request) :
  snd (webhook secret loads handlers req)
  = Response (jsonify "error" "Invalid signature") 401
  <-> result (verify_webhook_signature (get_data req) (signature_of req) secret)
      = Return false.
Proof.
  destruct (webhook_run secret loads handlers req) as
    [t Hv|t e Hv|Hv Hd|text e Hv Hd Hl|text data Hv Hd Hl He Hn
     |text d Hv Hd Hl He Hr|text d h t Hv Hd Hl He Hr Hh
     |text d h t e Hv Hd Hl He Hr Hh|text data Hv Hd Hl He
     |text data Hv Hd Hl He Hp];
    cbn [snd]; unfold failure_response, verified in *;
    try rewrite Hv;
    try match goal with
        | |- context [is_JSONDecodeError ?e] => destruct (is_JSONDecodeError e)
        end;
    cbn [is_JSONDecodeError];
    split; intros H; try discriminate H; try reflexivity.
Qed.

Lemma unauthorized_iff_verifier_false_witness :
  snd (webhook_app default_secret (Request (ascii_body "{}") (headers None None)))
  = Response (jsonify "error" "Invalid signature") 401.
Proof.
  apply (proj2 (unauthorized_iff_verifier_false default_secret json_loads
                  module_handlers
                  (Request (ascii_body "{}") (headers None None)))).
  reflexivity.
Defined.

(** X7. When the verifier raises, the endpoint logs the exception and
    answers 500; the body is neither decoded nor loaded and no handler is
    called. *)
Theorem verifier_exception_answers_500
    (secret : str) (loads : str -> outcome value)
    (handlers : handler -> value -> M record unit) (req : request) (e : exn) :
  result (verify_webhook_signature (get_data req) (signature_of req) secret)
  = Raise e ->
  webhook secret loads handlers req
  = ([Log (Rec ERROR "Error processing webhook: {}" [AExc e])],
     Response (jsonify "error" "Internal server error") 500).
Proof.
  intros H. apply verify_raise_silent in H as [Hv Hj].
  rewrite (webhook_raise secret loads handlers req _ e
             (webhook_try_verify_raised secret loads handlers req [] e Hv)).
  unfold failure_record, failure_response. now rewrite Hj.
Qed.

Lemma verifier_exception_answers_500_witness :
  webhook_app default_secret non_ascii_signature_delivery
  = ([Log (Rec ERROR "Error processing webhook: {}" [AExc TypeError])],
     Response (jsonify "error" "Internal server error") 500).
Proof.
  apply (verifier_exception_answers_500 default_secret json_loads
           module_handlers non_ascii_signature_delivery TypeError).
  evaluate.
Defined.

(** X8. The loader is consulted at most once, with the UTF-8 decoding of
    the body, and only for a request whose signature verified. *)
Theorem loader_consulted_once_after_verification
    (secret : str) (loads : str -> outcome value)
    (handlers : handler -> value -> M record unit) (req : request) :
  parses (fst (webhook secret loads handlers req))
  = match result (verify_webhook_signature (get_data req) (signature_of req)
                    secret),
          UTF8.decode (get_data req) with
    | Return true, Some text => [text]
    | _, _ => []
    end.
Proof.
  destruct (webhook_run secret loads handlers req) as
    [t Hv|t e Hv|Hv Hd|text e Hv Hd Hl|text data Hv Hd Hl He Hn
     |text d Hv Hd Hl He Hr|text d h t Hv Hd Hl He Hr Hh
     |text d h t e Hv Hd Hl He Hr Hh|text data Hv Hd Hl He
     |text data Hv Hd Hl He Hp];
    unfold verified in *; rewrite Hv; try rewrite Hd; cbn [fst result snd];
    rewrite ?parses_app, ?parses_logs; cbn [parses app];
    rewrite ?parses_app, ?parses_logs; reflexivity.
Qed.

(** X9. A verified [pull_request] delivery whose body is JSON but not an
    object is answered 500: reading the action raises [AttributeError],
    and no handler is called. *)
Theorem non_object_pull_request_answers_500
    (secret : str) (loads : str -> outcome value)
    (handlers : handler -> value -> M record unit)
    (req : request) (text : str) (data : value) :
  verified secret req ->
  UTF8.decode (get_data req) = Some text ->
  loads text = Return data ->
  event_type_of req = Some (lit "pull_request") ->
  (forall d, data <> VDict d) ->
  webhook secret loads handlers req
  = ([Parse text;
      Log (Rec ERROR "Error processing webhook: {}" [AExc AttributeError])],
     Response (jsonify "error" "Internal server error") 500).
Proof.
  intros Hv Hd Hl He Hn.
  now rewrite (webhook_pull_request_not_object secret loads handlers req text data).
Qed.

Lemma non_object_pull_request_answers_500_witness :
  webhook_app default_secret array_delivery
  = ([Parse (lit "[]");
      Log (Rec ERROR "Error processing webhook: {}" [AExc AttributeError])],
     Response (jsonify "error" "Internal server error") 500).
Proof.
  apply (non_object_pull_request_answers_500 default_secret json_loads
           module_handlers array_delivery (lit "[]") (VList []));
    try evaluate.
  discriminate.
Defined.

(** X10. A handler is called only on the object loaded from the body of a
    verified [pull_request] delivery, and only the handler the route table
    binds to that object's action. *)
Theorem handler_called_only_when_routed
    (secret : str) (loads : str -> outcome value)
    (handlers : handler -> value -> M record unit)
    (req : request) (h : handler) (data : value) :
  In (h, data) (calls (fst (webhook secret loads handlers req))) ->
  verified secret req
  /\ event_type_of req = Some (lit "pull_request")
  /\ exists text d,
       UTF8.decode (get_data req) = Some text
       /\ loads text = Return (VDict d)
       /\ data = VDict d
       /\ route (action_of d) = Some h.
Proof.
  destruct (webhook_run secret loads handlers req) as
    [t Hv|t e Hv|Hv Hd|text e Hv Hd Hl|text data' Hv Hd Hl He Hn
     |text d Hv Hd Hl He Hr|text d h' t Hv Hd Hl He Hr Hh
     |text d h' t e Hv Hd Hl He Hr Hh|text data' Hv Hd Hl He
     |text data' Hv Hd Hl He Hp];
    cbn [fst calls]; rewrite ?calls_app, ?calls_logs; cbn [calls app];
    try contradiction.
  - intros [[= <- <-]|[]]. repeat split; try assumption. now exists text, d.
  - intros [[= <- <-]|[]]. repeat split; try assumption. now exists text, d.
Qed.

Lemma handler_called_only_when_routed_witness :
  verified default_secret opened_delivery
  /\ event_type_of opened_delivery = Some (lit "pull_request")
  /\ exists text d,
       UTF8.decode (get_data opened_delivery) = Some text
       /\ json_loads text = Return (VDict d)
       /\ VDict opened_envelope = VDict d
       /\ route (action_of d) = Some Opened.
Proof.
  apply (handler_called_only_when_routed default_secret json_loads
           module_handlers opened_delivery Opened (VDict opened_envelope)).
  vm_compute. left. reflexivity.
Defined.

(** X11. With the module's own handlers, whatever the loader, 400 is
    answered exactly when the signature verified, the body is UTF-8 text,
    and the loader raised [JSONDecodeError] on that text; no failure of the
    verifier or of a handler produces it. *)
Theorem invalid_json_iff_loader_rejects
    (secret : str) (loads : str -> outcome value) (req : request) :
  snd (webhook secret loads module_handlers req)
  = Response (jsonify "error" "Invalid JSON") 400
  <-> verified secret req
      /\ exists text, UTF8.decode (get_data req) = Some text
                      /\ loads text = Raise JSONDecodeError.
Proof.
  destruct (webhook_run secret loads module_handlers req) as
    [t Hv|t e Hv|Hv Hd|text e Hv Hd Hl|text data Hv Hd Hl He Hn
     |text d Hv Hd Hl He Hr|text d h t Hv Hd Hl He Hr Hh
     |text d h t e Hv Hd Hl He Hr Hh|text data Hv Hd Hl He
     |text data Hv Hd Hl He Hp];
    cbn [snd]; unfold failure_response; cbn [is_JSONDecodeError].
  - split; [discriminate|]. unfold verified. rewrite Hv. intros [[=] _].
  - assert (Hr : result (verify_webhook_signature (get_data req)
                           (signature_of req) secret) = Raise e)
      by now rewrite Hv.
    apply verify_raise_silent in Hr as [_ ->].
    split; [discriminate|]. unfold verified. rewrite Hv. intros [[=] _].
  - split; [discriminate|]. intros (_ & text & Ht & _). congruence.
  - destruct e; cbn [is_JSONDecodeError];
      try (split; [discriminate|]; intros (_ & text' & Ht & Hl'); congruence).
    split; [|reflexivity]. intros _. split; [assumption|]. now exists text.
  - split; [discriminate|]. intros (_ & text' & Ht & Hl'). congruence.
  - split; [discriminate|]. intros (_ & text' & Ht & Hl'). congruence.
  - split; [discriminate|]. intros (_ & text' & Ht & Hl'). congruence.
  - assert (Hk : result (module_handlers h (VDict d)) = Raise e)
      by now rewrite Hh.
    apply handlers_raise_kinds in Hk as [->|[[k ->]| ->]];
      cbn [is_JSONDecodeError ValueError];
      (split; [discriminate|]; intros (_ & text' & Ht & Hl'); congruence).
  - split; [discriminate|]. intros (_ & text' & Ht & Hl'). congruence.
  - split; [discriminate|]. intros (_ & text' & Ht & Hl'). congruence.
Qed.

Lemma invalid_json_iff_loader_rejects_witness :
  snd (webhook_app default_secret ping_not_json_delivery)
  = Response (jsonify "error" "Invalid JSON") 400.
Proof.
  apply (proj2 (invalid_json_iff_loader_rejects default_secret json_loads
                  ping_not_json_delivery)).
  split; [evaluate|]. exists (lit "hello"). split; evaluate.
Defined.



(* ================================================================== *)
(** ** More on the verifier *)

Lemma startswith_split (p s : str) :
  startswith s p = true -> s = p ++ skipn (length p) s.
Proof.
  revert s. induction p as [|c p IH]; intros s.
  - reflexivity.
  - destruct s as [|d s]; [discriminate|]. simpl.
    intros H. apply andb_prop in H as [Hc Hs].
    apply N.eqb_eq in Hc. subst d. f_equal. now apply IH.
Qed.

Lemma Return_inj {A} (a b : A) : Return a = Return b -> a = b.
Proof. now intros [= ->]. Qed.

Lemma is_empty_false (s : str) : is_empty s = false <-> s <> [].
Proof. destruct s; simpl; split; congruence. Qed.

(** X1. When the header is absent or empty, when the secret is empty, and
    when the header does not start with [sha256=], the verifier returns
    [False] after logging exactly one warning; it does not raise. *)
Theorem verifier_rejects_malformed
    (payload : bytes) (signature : option str) (secret : str) :
  signature = None \/ signature = Some [] \/ secret = []
  \/ (exists s, signature = Some s /\ startswith s (lit "sha256=") = false) ->
  exists r,
    verify_webhook_signature payload signature secret = ([r], Return false)
    /\ (r = Rec WARNING "Missing signature or secret" []
        \/ r = Rec WARNING "Invalid signature format" []).
Proof.
  intros [->|[->|[->|(s & -> & Hp)]]].
  - eexists. split; [reflexivity|now left].
  - eexists. split; [reflexivity|now left].
  - eexists. split; [apply verify_empty_secret|now left].
  - unfold verify_webhook_signature.
    destruct (is_empty s || is_empty secret).
    + eexists. split; [reflexivity|now left].
    + rewrite Hp. eexists. split; [reflexivity|now right].
Qed.

Lemma verifier_rejects_malformed_witness :
  exists r,
    verify_webhook_signature (blit "{}") (Some (lit "sha1=abc")) default_secret
    = ([r], Return false)
    /\ (r = Rec WARNING "Missing signature or secret" []
        \/ r = Rec WARNING "Invalid signature format" []).
Proof.
  apply (verifier_rejects_malformed (blit "{}") (Some (lit "sha1=abc"))
           default_secret).
  do 3 right. exists (lit "sha1=abc"). split; reflexivity.
Defined.

(** X2. The verifier returns [True] for exactly one header: the prefix
    [sha256=] followed by the lowercase hexadecimal HMAC-SHA256 of the
    payload under the UTF-8 encoding of a non-empty secret. *)
Theorem verifier_accepts_exactly_the_digest
    (payload : bytes) (signature : option str) (secret : str) :
  result (verify_webhook_signature payload signature secret) = Return true
  <-> exists key,
        secret <> [] /\ UTF8.encode secret = Some key
        /\ signature
           = Some (lit "sha256=" ++ hexdigest (HMAC.hmac_sha256 key payload)).
Proof.
  split.
  - destruct signature as [s|]; [|discriminate].
    destruct (is_empty s) eqn:Hs.
    { destruct s; discriminate. }
    destruct (is_empty secret) eqn:Hk.
    { destruct secret; [|discriminate]. rewrite verify_empty_secret. discriminate. }
    destruct (startswith s (lit "sha256=")) eqn:Hp.
    2:{ intros H. rewrite (verify_wrong_prefix payload s secret Hp) in H.
        discriminate. }
    rewrite (verify_past_guards payload s secret Hs Hk Hp).
    destruct (UTF8.encode secret) as [key|]; [|discriminate].
    destruct (is_ascii (slice_from 7 s)); [|discriminate].
    unfold result; cbn [snd]. intros H. apply Return_inj, str_eqb_eq in H.
    exists key. split; [now apply is_empty_false|]. split; [reflexivity|].
    rewrite <- H. f_equal. exact (startswith_split (lit "sha256=") s Hp).
  - intros (key & Hk & He & ->). apply is_empty_false in Hk.
    rewrite verify_past_guards; try assumption.
    + rewrite He. change (slice_from 7 (lit "sha256=" ++ ?x)) with x.
      now rewrite hexdigest_ascii, str_eqb_refl.
    + reflexivity.
    + apply startswith_app.
Qed.

Lemma verifier_accepts_exactly_the_digest_witness :
  result (verify_webhook_signature (blit "{}")
            (Some (lit "sha256="
                   ++ hexdigest (HMAC.hmac_sha256
                                   (blit "your_webhook_secret_here") (blit "{}"))))
            default_secret)
  = Return true.
Proof.
  apply (proj2 (verifier_accepts_exactly_the_digest (blit "{}")
                  (Some (lit "sha256="
                         ++ hexdigest (HMAC.hmac_sha256
                                         (blit "your_webhook_secret_here")
                                         (blit "{}"))))
                  default_secret)).
  exists (blit "your_webhook_secret_here").
  split; [discriminate|]. split; reflexivity.
Defined.

(** X3. The verifier raises in exactly two situations, both past its
    guards: [UnicodeEncodeError] when the secret has no UTF-8 encoding,
    and [TypeError] when the header is not ASCII after its prefix. *)
Theorem verifier_raises_exactly
    (payload : bytes) (signature : option str) (secret : str) (e : exn) :
  result (verify_webhook_signature payload signature secret) = Raise e
  <-> exists s,
        signature = Some s /\ s <> [] /\ secret <> []
        /\ startswith s (lit "sha256=") = true
        /\ ((UTF8.encode secret = None /\ e = UnicodeEncodeError)
            \/ (UTF8.encode secret <> None
                /\ is_ascii (slice_from 7 s) = false /\ e = TypeError)).
Proof.
  rewrite verify_raises. split.
  - intros (s & Hs & H1 & H2 & H).
    exists s. now rewrite <- !is_empty_false.
  - intros (s & Hs & H1 & H2 & H).
    exists s. now rewrite !is_empty_false.
Qed.

Lemma verifier_raises_exactly_witness :
  result (verify_webhook_signature (blit "{}") (Some (lit "sha256=ok"))
            [0xD800%N])
  = Raise UnicodeEncodeError.
Proof.
  apply (proj2 (verifier_raises_exactly (blit "{}") (Some (lit "sha256=ok"))
                  [0xD800%N] UnicodeEncodeError)).
  exists (lit "sha256=ok").
  repeat apply conj; try discriminate; try reflexivity.
  left. split; reflexivity.
Defined.

(** X4. A header with the right prefix and ASCII text that is not the
    digest is rejected silently: the verifier returns [False] and logs
    nothing itself. *)
Theorem verifier_rejects_wrong_digest_silently
    (payload : bytes) (s secret : str) (key : bytes) :
  secret <> [] ->
  UTF8.encode secret = Some key ->
  startswith s (lit "sha256=") = true ->
  is_ascii (slice_from 7 s) = true ->
  slice_from 7 s <> hexdigest (HMAC.hmac_sha256 key payload) ->
  verify_webhook_signature payload (Some s) secret = ([], Return false).
Proof.
  intros Hk He Hp Ha Hne. apply is_empty_false in Hk.
  rewrite verify_past_guards; try assumption.
  - rewrite He, Ha.
    destruct (str_eqb (slice_from 7 s) (hexdigest (HMAC.hmac_sha256 key payload)))
      eqn:E; [|reflexivity].
    apply str_eqb_eq in E. contradiction.
  - destruct s; [discriminate|reflexivity].
Qed.

Lemma verifier_rejects_wrong_digest_silently_witness :
  verify_webhook_signature (blit "{}") (Some (lit "sha256=00")) default_secret
  = ([], Return false).
Proof.
  apply (verifier_rejects_wrong_digest_silently (blit "{}") (lit "sha256=00")
           default_secret (blit "your_webhook_secret_here")).
  - discriminate.
  - reflexivity.
  - reflexivity.
  - reflexivity.
  - intros H. apply (f_equal (@length N)) in H.
    rewrite hexdigest_length in H. vm_compute in H. discriminate.
Defined.

(* ================================================================== *)
(** ** Configuration *)

(** X20. When the environment sets [WEBHOOK_SECRET] to the empty string
    (the default applies only to an unset variable), every request is
    answered 401. *)
Theorem blank_secret_rejects_everything
    (environ : string -> option str) (loads : str -> outcome value)
    (handlers : handler -> value -> M record unit) (req : request) :
  environ "WEBHOOK_SECRET"%string = Some [] ->
  webhook (WEBHOOK_SECRET environ) loads handlers req
  = ([Log (Rec WARNING "Missing signature or secret" []);
      Log (Rec WARNING "Invalid webhook signature" [])],
     Response (jsonify "error" "Invalid signature") 401).
Proof.
  intros H. unfold WEBHOOK_SECRET, getenv. rewrite H.
  apply webhook_return.
  apply (webhook_try_rejected [] loads handlers req [missing_record]).
  apply verify_empty_secret.
Qed.

Lemma blank_secret_rejects_everything_witness :
  webhook (WEBHOOK_SECRET blank_secret_environ) json_loads module_handlers
    opened_delivery
  = ([Log (Rec WARNING "Missing signature or secret" []);
      Log (Rec WARNING "Invalid webhook signature" [])],
     Response (jsonify "error" "Invalid signature") 401).
Proof.
  apply (blank_secret_rejects_everything blank_secret_environ json_loads
           module_handlers opened_delivery).
  reflexivity.
Defined.

(** X21. When the environment does not set [WEBHOOK_SECRET], the secret is
    the published default, and any request signed under that default
    verifies. *)
Theorem unset_secret_accepts_default_signature
    (environ : string -> option str) (req : request) :
  environ "WEBHOOK_SECRET"%string = None ->
  signature_of req
  = Some (sign (blit "your_webhook_secret_here") (get_data req)) ->
  verified (WEBHOOK_SECRET environ) req.
Proof.
  intros H Hs. unfold verified, WEBHOOK_SECRET, getenv. rewrite H, Hs.
  unfold sign. rewrite verify_past_guards.
  - change (UTF8.encode (lit "your_webhook_secret_here"))
      with (Some (blit "your_webhook_secret_here")).
    change (slice_from 7 (lit "sha256=" ++ ?x)) with x.
    now rewrite hexdigest_ascii, str_eqb_refl.
  - reflexivity.
  - reflexivity.
  - apply startswith_app.
Qed.

Lemma unset_secret_accepts_default_signature_witness :
  verified (WEBHOOK_SECRET empty_environ) opened_delivery.
Proof.
  apply (unset_secret_accepts_default_signature empty_environ opened_delivery);
    reflexivity.
Defined.






(** X13. A handler given an object without [pull_request], or something
    that is not an object, raises before it logs anything: a [KeyError]
    naming the key in the first case, a [TypeError] in the second. *)
Theorem handler_fails_before_logging (h : handler) (payload : value) :
  field payload "pull_request" = None ->
  module_handlers h payload
  = ([], Raise (match payload with
                | VDict _ => KeyError (lit "pull_request")
                | _ => TypeError
                end)).
Proof.
  intros H.
  destruct h; unfold module_handlers, handle_pull_request_opened,
    handle_pull_request_closed, handle_pull_request_merged,
    handle_pull_request_review_requested,
    handle_pull_request_review_submitted, handle_pull_request_synchronize;
    now rewrite (getitem_absent payload "pull_request" H).
Qed.

Lemma handler_fails_before_logging_witness :
  module_handlers Merged (VDict [(lit "action", VStr (lit "merged"))])
  = ([], Raise (KeyError (lit "pull_request"))).
Proof.
  apply (handler_fails_before_logging Merged
           (VDict [(lit "action", VStr (lit "merged"))])).
  reflexivity.
Defined.

(** X14. Why one of the six handlers fails, on a payload whose shown
    values are scalars: with a [KeyError] or a [TypeError], and then
    something it reads is missing; or with a [ValueError], and then a
    value it shows does not convert to text (an [int] of more digits than
    the limit).  None raises [AttributeError], although two of them call
    [.get]. *)
Theorem handler_failure_kinds (h : handler) (payload : value) (e : exn) :
  scalars h payload = true ->
  result (module_handlers h payload) = Raise e ->
  ((e = TypeError \/ exists k, e = KeyError k) /\ complete h payload = false)
  \/ (e = ValueError
      /\ forallb renders (values_at payload (interpolated h payload)) = false).
Proof. intros _. apply handler_failure_cause. Qed.

Lemma handler_failure_kinds_witness :
  ((KeyError (lit "merged") = TypeError
    \/ exists k, KeyError (lit "merged") = KeyError k)
   /\ complete Closed (VDict closed_without_flag_envelope) = false)
  \/ (KeyError (lit "merged") = ValueError
      /\ forallb renders
           (values_at (VDict closed_without_flag_envelope)
              (interpolated Closed (VDict closed_without_flag_envelope)))
         = false).
Proof.
  apply (handler_failure_kinds Closed (VDict closed_without_flag_envelope));
    vm_compute; reflexivity.
Defined.

(** X15. On a payload whose shown values are scalars, a handler returns
    normally exactly when the payload holds every field the handler reads
    (the fields listed in [required], and for the review-request handler a
    [login] in a truthy [requested_reviewer] and a [name] in a truthy
    [requested_team]) and every value it shows converts to text. *)
Theorem handler_returns_iff_usable (h : handler) (payload : value) :
  scalars h payload = true ->
  (result (module_handlers h payload) = Return tt <-> usable h payload = true).
Proof. intros _. apply handler_returns_iff. Qed.

Lemma handler_returns_iff_usable_witness :
  result (module_handlers Opened (VDict opened_envelope)) = Return tt
  /\ result (module_handlers Opened (VDict long_number_envelope)) <> Return tt.
Proof.
  split.
  - apply (proj2 (handler_returns_iff_usable Opened (VDict opened_envelope)
                    ltac:(vm_compute; reflexivity))).
    vm_compute; reflexivity.
  - intros H.
    apply (proj1 (handler_returns_iff_usable Opened (VDict long_number_envelope)
                    ltac:(vm_compute; reflexivity))) in H.
    vm_compute in H. discriminate H.
Defined.










(* ================================================================== *)
(** ** The example handlers *)

Lemma result_emit {W} (w : W) : result (emit w) = Return tt.
Proof. reflexivity. Qed.

















